(** * fast-check: property construction, run classification and reporting

    A shallow embedding of

    - [src/check/property/AsyncProperty.ts]: the [AsyncProperty] class and the
      variadic [asyncProperty] builder;
    - the run-details formatter (hint, failure and execution-summary
      formatting, the three [preFormat*] report builders, [throwIfFailed]) and
      the experimental custom-assertion wrappers that live in the same file.

    JavaScript strings are modelled as byte strings (UTF-8), numbers that are
    counters or seeds as [Z], arrays that the code mutates in place as
    references into a store, promises by the way they settle. *)

From Stdlib Require Import ZArith Ascii String.
From stdpp Require Import gmap strings list pretty.

Set Warnings "-register-all".

Local Open Scope string_scope.
Local Open Scope list_scope.

(** ** JavaScript runtime helpers *)

Module Js.

(** The line feed written [\n] in the source's string literals. *)
Definition LF : string := String "010" EmptyString.

(** The escape character written [\x1b] in the source. *)
Definition ESC : string := String "027" EmptyString.

(** The double quote. *)
Definition DQUOTE : string := String "034" EmptyString.

(** [Array.prototype.join] on an array of strings. *)
Definition join (sep : string) (parts : list string) : string :=
  String.concat sep parts.

(** [`${n}`] for an integer-valued number: its decimal digits, with a leading
    minus sign when negative. *)
Definition Number_toString (n : Z) : string := pretty n.

(** [`${x}`] for [x : string | null]. *)
Definition String_orNull (x : option string) : string :=
  match x with
  | Some s => s
  | None => "null"
  end.

(** [`${x}`] for [x : string | undefined]. *)
Definition String_orUndefined (x : option string) : string :=
  match x with
  | Some s => s
  | None => "undefined"
  end.

(** [Array.prototype.push] on a local array: the element goes last. *)
Definition push {A} (arr : list A) (x : A) : list A := arr ++ [x].

(** [Array.prototype.pop] on a local array: the last element and the array
    without it, or [None] when the array is empty. *)
Definition pop {A} (arr : list A) : option (A * list A) :=
  match reverse arr with
  | [] => None
  | x :: front => Some (x, reverse front)
  end.

(** What a program can throw: an [Error] object (its [name], [message] and
    [stack] fields, the latter possibly undefined), or any other value, kept
    by its string form. *)
Inductive Thrown : Type :=
| JsError (name message : string) (stack : option string)
| JsOther (text : string).

(** [`${err}`]: [Error.prototype.toString] for error objects. *)
Definition Thrown_toString (err : Thrown) : string :=
  match err with
  | JsError name message _ =>
      if decide (name = EmptyString) then message
      else if decide (message = EmptyString) then name
      else name +:+ ": " +:+ message
  | JsOther text => text
  end.

(** How a promise settles once awaited; [Pending] is the promise that never
    settles. *)
Inductive Promise (A : Type) : Type :=
| Resolved (a : A)
| Rejected (reason : Thrown)
| Pending.
Arguments Resolved {A} a.
Arguments Rejected {A} reason.
Arguments Pending {A}.

End Js.

(** ** The run-details formatter

    The source file of [throwIfFailed]: [formatHints], [formatFailures],
    [formatExecutionSummary], the three [preFormat*] builders and the
    custom-assertion wrappers. *)

Module RunDetailsFormatter.
Import Js.

(** Modelled from the spec: [VerbosityLevel], an ordinal enumeration with
    three ordered levels (minimal, intermediate "Verbose", full
    "VeryVerbose"); its declaration is not part of the sources at hand. *)
Inductive VerbosityLevel : Type := NoVerbosity | Verbose | VeryVerbose.

Definition VerbosityLevel_ordinal (v : VerbosityLevel) : Z :=
  match v with
  | NoVerbosity => 0
  | Verbose => 1
  | VeryVerbose => 2
  end.

Global Instance VerbosityLevel_eq_dec : EqDecision VerbosityLevel.
Proof. solve_decision. Defined.

(** Modelled from the spec: [ExecutionStatus], imported from the reporter;
    "status in {Success, Failure, Skipped}". *)
Inductive ExecutionStatus : Type := Success | Failure | Skipped.

Global Instance ExecutionStatus_eq_dec : EqDecision ExecutionStatus.
Proof. solve_decision. Defined.

(** References to the arrays that hold execution trees. Only arrays are
    mutated by the formatter, so only arrays live in the store; the node
    objects themselves are read-only and kept as values. *)
Definition ref : Type := positive.

(** Modelled from the spec: [ExecutionTree<Ts>], imported from the reporter;
    a value, a status and the ordered sequence of its children, which the
    source reads as [status], [value] and [children]. *)
Record ExecutionTree (Ts : Type) : Type := mkExecutionTree {
  status : ExecutionStatus;
  value : Ts;
  children : ref
}.
Arguments mkExecutionTree {Ts} status value children.
Arguments status {Ts} e.
Arguments value {Ts} e.
Arguments children {Ts} e.

(** Modelled from the spec: [RunDetails<Ts>] (the run statistics), imported
    from the reporter, with the fields the source reads and the names it
    reads them by; [counterexample], [counterexamplePath] and [error] may be
    [null]. *)
Record RunDetails (Ts : Type) : Type := mkRunDetails {
  failed : bool;
  interrupted : bool;
  numRuns : Z;
  numSkips : Z;
  numShrinks : Z;
  seed : Z;
  counterexample : option Ts;
  counterexamplePath : option string;
  error : option string;
  failures : list Ts;
  verbose : VerbosityLevel;
  executionSummary : ref
}.
Arguments mkRunDetails {Ts}.
Arguments failed {Ts} r.
Arguments interrupted {Ts} r.
Arguments numRuns {Ts} r.
Arguments numSkips {Ts} r.
Arguments numShrinks {Ts} r.
Arguments seed {Ts} r.
Arguments counterexample {Ts} r.
Arguments counterexamplePath {Ts} r.
Arguments error {Ts} r.
Arguments failures {Ts} r.
Arguments verbose {Ts} r.
Arguments executionSummary {Ts} r.

(** The three report builders, by name. *)
Inductive Builder : Type := TooManySkipped | FailureFound | EarlyInterrupted.

Global Instance Builder_eq_dec : EqDecision Builder.
Proof. solve_decision. Defined.

(** The callbacks a caller hands to the custom-assertion wrappers. *)
Inductive Callback : Type :=
| CallMethod | OnRunInterrupted | OnRunFailed | OnRunTooManySkip.

(** Calls worth observing: a report builder being entered, a caller's
    callback being invoked with its arguments. The trace that collects them
    is the observer's, not a variable of the source: the functions below
    append to it where the source makes such a call, and read nothing from
    it. *)
Inductive Event (Ts : Type) : Type :=
| Fired (b : Builder)
| Invoked (c : Callback) (args : Ts).
Arguments Fired {Ts} b.
Arguments Invoked {Ts} c args.

(** What a function of this file raises: [new Error(message)], or the
    rejection of a promise it awaited. *)
Inductive Exn : Type :=
| NewError (message : string)
| Propagated (reason : Thrown).

(** How a call ends. [Diverged]: it does not return (a loop that keeps
    going, a promise that never settles). [Wild]: it followed a reference to
    an array the store does not hold. *)
Inductive Outcome (A : Type) : Type :=
| Returned (a : A)
| Raised (e : Exn)
| Diverged
| Wild.
Arguments Returned {A} a.
Arguments Raised {A} e.
Arguments Diverged {A}.
Arguments Wild {A}.

(** The state the functions run in: the arrays of execution trees and the
    call trace. *)
Record State (Ts : Type) : Type := mkState {
  heap : gmap ref (list (ExecutionTree Ts));
  trace : list (Event Ts)
}.
Arguments mkState {Ts} heap trace.
Arguments heap {Ts} s.
Arguments trace {Ts} s.

Definition M (Ts A : Type) : Type := State Ts -> Outcome A * State Ts.

Definition ret {Ts A} (a : A) : M Ts A := fun st => (Returned a, st).

Definition bind {Ts A B} (m : M Ts A) (k : A -> M Ts B) : M Ts B :=
  fun st =>
    match m st with
    | (Returned a, st') => k a st'
    | (Raised e, st') => (Raised e, st')
    | (Diverged, st') => (Diverged, st')
    | (Wild, st') => (Wild, st')
    end.

Definition raise {Ts A} (e : Exn) : M Ts A := fun st => (Raised e, st).

Definition diverge {Ts A} : M Ts A := fun st => (Diverged, st).

Definition emit {Ts} (ev : Event Ts) : M Ts unit :=
  fun st => (Returned tt, mkState (heap st) (trace st ++ [ev])).

(** [await p]. *)
Definition await {Ts A} (p : Promise A) : M Ts A :=
  match p with
  | Resolved a => ret a
  | Rejected reason => raise (Propagated reason)
  | Pending => diverge
  end.

(** Reading the elements of a stored array. *)
Definition Array_elements {Ts} (a : ref) : M Ts (list (ExecutionTree Ts)) :=
  fun st =>
    match heap st !! a with
    | Some elts => (Returned elts, st)
    | None => (Wild, st)
    end.

(** [Array.prototype.reverse]: reverses the array in place and returns the
    same array. *)
Definition Array_reverse {Ts} (a : ref) : M Ts ref :=
  fun st =>
    match heap st !! a with
    | Some elts => (Returned a, mkState (<[a := reverse elts]> (heap st)) (trace st))
    | None => (Wild, st)
    end.

Notation "'do' x <- m ; k" := (bind m (fun x => k))
  (at level 10, x name, m at level 100, k at level 200).

Section Formatter.
Context {Ts : Type}.

(** The value formatter [stringify] of [utils/stringify], applied by the
    source to values of type [Ts | null]. *)
Context (stringify : option Ts -> string).

Definition formatHints (hints : list string) : string :=
  match hints with
  | [h] => "Hint: " +:+ h
  | _ =>
      join LF (imap (fun idx h =>
        "Hint (" +:+ Number_toString (Z.of_nat idx + 1) +:+ "): " +:+ h) hints)
  end.

Definition formatFailures (failures : list Ts) : string :=
  "Encountered failures were:" +:+ LF +:+ "- " +:+
  join (LF +:+ "- ") (map (fun f => stringify (Some f)) failures).

(** The three status icons: a coloured check mark (U+221A), a coloured
    multiplication sign (U+00D7) and a coloured exclamation mark. *)
Definition icon_success : string :=
  ESC +:+ "[32m" +:+ String "226" (String "136" (String "154" EmptyString)) +:+ ESC +:+ "[0m".
Definition icon_failure : string :=
  ESC +:+ "[31m" +:+ String "195" (String "151" EmptyString) +:+ ESC +:+ "[0m".
Definition icon_skipped : string :=
  ESC +:+ "[33m" +:+ "!" +:+ ESC +:+ "[0m".

Definition statusIcon (s : ExecutionStatus) : string :=
  if decide (s = Success) then icon_success
  else if decide (s = Failure) then icon_failure
  else icon_skipped.

(** [Array(depth).join('. ')]: [depth] empty slots joined. *)
Definition leftPadding (depth : nat) : string := join ". " (replicate depth EmptyString).

(** The [while] loop of [formatExecutionSummary]; [fuel] bounds the number
    of iterations. *)
Fixpoint summaryLoop (fuel : nat)
    (remainingTreesAndDepth : list (nat * ExecutionTree Ts))
    (summaryLines : list string) : M Ts (list string) :=
  match pop remainingTreesAndDepth with
  | None => ret summaryLines
  | Some ((currentDepth, currentTree), remainingTreesAndDepth) =>
      match fuel with
      | O => diverge
      | S fuel =>
          let summaryLines :=
            push summaryLines
              (leftPadding currentDepth +:+ statusIcon (status currentTree)
                 +:+ " " +:+ stringify (Some (value currentTree))) in
          do reversed <- Array_reverse (children currentTree);
          do trees <- Array_elements reversed;
          summaryLoop fuel
            (foldl (fun remaining tree => push remaining (currentDepth + 1, tree))
               remainingTreesAndDepth trees)
            summaryLines
      end
  end.

Definition formatExecutionSummary (fuel : nat) (executionTrees : ref) : M Ts string :=
  do reversed <- Array_reverse executionTrees;
  do trees <- Array_elements reversed;
  do summaryLines <-
    summaryLoop fuel (foldl (fun remaining tree => push remaining (1, tree)) [] trees) [];
  ret ("Execution summary:" +:+ LF +:+ join LF summaryLines).

(** The report a builder returns: [{ message, details, hints }]. *)
Record Report : Type := mkReport {
  message : string;
  details : option string;
  hints : list string
}.

Definition preFormatTooManySkipped (fuel : nat) (out : RunDetails Ts) : M Ts Report :=
  do _ <- emit (Fired TooManySkipped);
  let message :=
    "Failed to run property, too many pre-condition failures encountered" +:+ LF +:+
    "{ seed: " +:+ Number_toString (seed out) +:+ " }" +:+ LF +:+ LF +:+
    "Ran " +:+ Number_toString (numRuns out) +:+ " time(s)" +:+ LF +:+
    "Skipped " +:+ Number_toString (numSkips out) +:+ " time(s)" in
  let hints :=
    [ "Try to reduce the number of rejected values by combining map, flatMap and built-in arbitraries";
      "Increase failure tolerance by setting maxSkipsPerRun to an higher value" ] in
  if decide (VerbosityLevel_ordinal VeryVerbose <= VerbosityLevel_ordinal (verbose out))%Z
  then
    do details <- formatExecutionSummary fuel (executionSummary out);
    ret (mkReport message (Some details) hints)
  else
    ret (mkReport message None
           (push hints
              "Enable verbose mode at level VeryVerbose in order to check all generated values and their associated status")).

Definition preFormatFailure (fuel : nat) (out : RunDetails Ts) : M Ts Report :=
  do _ <- emit (Fired FailureFound);
  let message :=
    "Property failed after " +:+ Number_toString (numRuns out) +:+ " tests" +:+ LF +:+
    "{ seed: " +:+ Number_toString (seed out) +:+ ", path: " +:+ DQUOTE +:+
    String_orNull (counterexamplePath out) +:+ DQUOTE +:+ ", endOnFailure: true }" +:+ LF +:+
    "Counterexample: " +:+ stringify (counterexample out) +:+ LF +:+
    "Shrunk " +:+ Number_toString (numShrinks out) +:+ " time(s)" +:+ LF +:+
    "Got error: " +:+ String_orNull (error out) in
  let hints := [] in
  if decide (VerbosityLevel_ordinal VeryVerbose <= VerbosityLevel_ordinal (verbose out))%Z
  then
    do details <- formatExecutionSummary fuel (executionSummary out);
    ret (mkReport message (Some details) hints)
  else if decide (verbose out = Verbose)
  then ret (mkReport message (Some (formatFailures (failures out))) hints)
  else
    ret (mkReport message None
           (push hints
              "Enable verbose mode in order to have the list of all failing values encountered during the run")).

Definition preFormatEarlyInterrupted (fuel : nat) (out : RunDetails Ts) : M Ts Report :=
  do _ <- emit (Fired EarlyInterrupted);
  let message :=
    "Property interrupted after " +:+ Number_toString (numRuns out) +:+ " tests" +:+ LF +:+
    "{ seed: " +:+ Number_toString (seed out) +:+ " }" in
  let hints := [] in
  if decide (VerbosityLevel_ordinal VeryVerbose <= VerbosityLevel_ordinal (verbose out))%Z
  then
    do details <- formatExecutionSummary fuel (executionSummary out);
    ret (mkReport message (Some details) hints)
  else
    ret (mkReport message None
           (push hints
              "Enable verbose mode at level VeryVerbose in order to check all generated values and their associated status")).

Definition throwIfFailed (fuel : nat) (out : RunDetails Ts) : M Ts unit :=
  if negb (failed out) then ret tt
  else
    do report <-
      match counterexample out with
      | None =>
          if interrupted out
          then preFormatEarlyInterrupted fuel out
          else preFormatTooManySkipped fuel out
      | Some _ => preFormatFailure fuel out
      end;
    let errorMessage := message report in
    let errorMessage :=
      match details report with
      | Some details => errorMessage +:+ LF +:+ LF +:+ details
      | None => errorMessage
      end in
    let errorMessage :=
      if decide (0 < length (hints report))
      then errorMessage +:+ LF +:+ LF +:+ formatHints (hints report)
      else errorMessage in
    raise (NewError errorMessage).

End Formatter.

(** *** Execution forests

    The forest a store holds, read off as a tree: every node with the
    reference of its array of children. *)

Section Forest.
Context {Ts : Type}.

Inductive Tree : Type :=
| Node (s : ExecutionStatus) (v : Ts) (a : ref) (cs : list Tree).

Definition node_of (t : Tree) : ExecutionTree Ts :=
  match t with
  | Node s v a _ => mkExecutionTree s v a
  end.

(** The arrays of children a tree owns. *)
Fixpoint refs (t : Tree) : list ref :=
  match t with
  | Node _ _ a cs => a :: flat_map refs cs
  end.

(** The number of nodes of a tree, of a forest. *)
Fixpoint nodes (t : Tree) : nat :=
  match t with
  | Node _ _ _ cs => S (sum_list (map nodes cs))
  end.

Definition forest_nodes (forest : list Tree) : nat := sum_list (map nodes forest).

(** The store holds the tree: the array of each node holds its children. *)
Inductive stored (h : gmap ref (list (ExecutionTree Ts))) : Tree -> Prop :=
| stored_node s v a cs :
    h !! a = Some (map node_of cs) ->
    Forall (stored h) cs ->
    stored h (Node s v a cs).

(** The array [a] holds the roots of [forest], and no array is shared:
    every node owns its array of children. *)
Definition represents (h : gmap ref (list (ExecutionTree Ts))) (a : ref)
    (forest : list Tree) : Prop :=
  h !! a = Some (map node_of forest) /\
  Forall (stored h) forest /\
  NoDup (a :: flat_map refs forest).

(** A tree with the order of the siblings reversed at every level, and a
    forest with its roots reversed as well. *)
Fixpoint mirror (t : Tree) : Tree :=
  match t with
  | Node s v a cs => Node s v a (reverse (map mirror cs))
  end.

Definition mirror_forest (forest : list Tree) : list Tree :=
  reverse (map mirror forest).

(** Pre-order traversal: a node, then its children from first to last, each
    with its depth. *)
Fixpoint preorder (depth : nat) (t : Tree) : list (nat * ExecutionStatus * Ts) :=
  match t with
  | Node s v _ cs => (depth, s, v) :: flat_map (preorder (S depth)) cs
  end.

Definition forest_preorder (forest : list Tree) : list (nat * ExecutionStatus * Ts) :=
  flat_map (preorder 1) forest.

(** [n] copies of the two-character marker. *)
Fixpoint indentation (n : nat) : string :=
  match n with
  | O => EmptyString
  | S n => ". " +:+ indentation n
  end.

Context (stringify : option Ts -> string).

(** The line of a node in the summary. *)
Definition summaryLine (entry : nat * ExecutionStatus * Ts) : string :=
  match entry with
  | (depth, s, v) =>
      indentation (depth - 1) +:+ statusIcon s +:+ " " +:+ stringify (Some v)
  end.

(** The work stack of the traversal, top first: trees still to render, each
    with its depth; the entries the loop holds for them and the lines they
    will contribute. *)
Definition entry_of (e : nat * Tree) : nat * ExecutionTree Ts :=
  (fst e, node_of (snd e)).

Definition work_lines (work : list (nat * Tree)) : list string :=
  flat_map (fun e => map summaryLine (preorder (fst e) (snd e))) work.

(** The builder of a given name. *)
Definition preFormat (b : Builder) : nat -> RunDetails Ts -> M Ts Report :=
  match b with
  | TooManySkipped => preFormatTooManySkipped stringify
  | FailureFound => preFormatFailure stringify
  | EarlyInterrupted => preFormatEarlyInterrupted stringify
  end.

(** The builder for a failed run, from the two facts the classification
    reads. *)
Definition selectBuilder (hasCounterexample isInterrupted : bool) : Builder :=
  if hasCounterexample then FailureFound
  else if isInterrupted then EarlyInterrupted
  else TooManySkipped.

Definition hasCounterexample (out : RunDetails Ts) : bool :=
  match counterexample out with
  | Some _ => true
  | None => false
  end.

(** The text of the error for a report: the message, then the details and
    the hints when there are any, a blank line before each. Several hints
    are numbered from 1, one per line; a single hint is not numbered. *)
Definition numberedHint (i : nat) (h : string) : string :=
  "Hint (" +:+ pretty (S i) +:+ "): " +:+ h.

Definition hintsText (hints : list string) : string :=
  match hints with
  | [] => EmptyString
  | [h] => LF +:+ LF +:+ "Hint: " +:+ h
  | _ => LF +:+ LF +:+ join LF (imap numberedHint hints)
  end.

Definition detailsText (details : option string) : string :=
  match details with
  | Some d => LF +:+ LF +:+ d
  | None => EmptyString
  end.

Definition errorText (r : Report) : string :=
  message r +:+ detailsText (details r) +:+ hintsText (hints r).

(** The store and the fuel are enough to render the summary of [out]. *)
Definition renderable (st : State Ts) (fuel : nat) (out : RunDetails Ts) : Prop :=
  exists forest,
    represents (heap st) (executionSummary out) forest /\ forest_nodes forest <= fuel.

End Forest.

(** *** The custom-assertion wrappers ("manually playground") *)

Section CustomAssert.

(** The counterexample is a tuple of generated values, [Ts extends any[]];
    spreading it hands its elements to the callback as positional
    arguments. *)
Context {T : Type}.
Local Abbreviation Ts := (list T).

(** [IAsyncProperty<Ts>] and [Parameters<Ts>] are only handed on to
    [fc.check]. *)
Context {IAsyncProperty Parameters : Type}.

(** [fc.check], the trial driver, by the way its promise settles. *)
Context (fc_check : IAsyncProperty -> option Parameters -> Promise (RunDetails Ts)).

(** [fc_formatRunDetails], declared in the source without a body. *)
Context (fc_formatRunDetails : RunDetails Ts -> option string).

(** The message of [new Error(m)] for [m : string | undefined]. *)
Definition Error_message (m : option string) : string :=
  match m with
  | Some s => s
  | None => EmptyString
  end.

Definition customAssertA (property : IAsyncProperty) (params : option Parameters)
    : M Ts unit :=
  do out <- await (fc_check property params);
  if negb (failed out) then ret tt
  else
    let genericErrorMessage := fc_formatRunDetails out in
    match counterexample out with
    | None => raise (NewError (Error_message genericErrorMessage))
    | Some _ =>
        raise (NewError (String_orUndefined genericErrorMessage +:+ LF +:+ LF +:+
                         "await callMethod(out.counterexample)"))
    end.

(** The [run] method of the object [buildCustomAssertB] returns. *)
Definition buildCustomAssertB_run (property : IAsyncProperty)
    (params : option Parameters) (callMethod : option (Ts -> Promise string))
    : M Ts unit :=
  do out <- await (fc_check property params);
  if negb (failed out) then ret tt
  else
    let genericErrorMessage := fc_formatRunDetails out in
    match callMethod, counterexample out with
    | Some callMethod, Some counterexample =>
        do _ <- emit (Invoked CallMethod counterexample);
        do explained <- await (callMethod counterexample);
        raise (NewError (String_orUndefined genericErrorMessage +:+ LF +:+ LF +:+ explained))
    | _, _ => raise (NewError (Error_message genericErrorMessage))
    end.

Definition withCustomAssert (run : Promise (RunDetails Ts))
    (callMethod : Ts -> Promise string) : M Ts unit :=
  do out <- await run;
  if negb (failed out) then ret tt
  else
    let genericErrorMessage := fc_formatRunDetails out in
    match counterexample out with
    | None => raise (NewError (Error_message genericErrorMessage))
    | Some counterexample =>
        do _ <- emit (Invoked CallMethod counterexample);
        do explained <- await (callMethod counterexample);
        raise (NewError (String_orUndefined genericErrorMessage +:+ LF +:+ LF +:+ explained))
    end.

(** The [config] object of [withCustomAssertB]. *)
Record Config : Type := mkConfig {
  onRunInterrupted : Ts -> Promise string;
  onRunFailed : Ts -> Promise string;
  onRunTooManySkip : Ts -> Promise string
}.

Definition withCustomAssertB (run : Promise (RunDetails Ts)) (config : Config)
    : M Ts unit :=
  do out <- await run;
  if negb (failed out) then ret tt
  else
    let genericErrorMessage := fc_formatRunDetails out in
    match counterexample out with
    | None => raise (NewError (Error_message genericErrorMessage))
    | Some counterexample =>
        do _ <- emit (Invoked OnRunInterrupted counterexample);
        do explained <- await (onRunInterrupted config counterexample);
        raise (NewError (String_orUndefined genericErrorMessage +:+ LF +:+ LF +:+ explained))
    end.

End CustomAssert.

End RunDetailsFormatter.

(** ** [AsyncProperty.ts] *)

Module AsyncProperty.
Import Js.

(** What a predicate's promise resolves to: [boolean | void]. *)
Inductive PredicateOutput : Type :=
| Bool (b : bool)
| Undefined.

(** [output == null] and [output == true] on such a value. *)
Definition looseEq_null (output : PredicateOutput) : bool :=
  match output with
  | Undefined => true
  | Bool _ => false
  end.

Definition looseEq_true (output : PredicateOutput) : bool :=
  match output with
  | Bool b => b
  | Undefined => false
  end.

(** How a synchronous call ends. *)
Inductive Completion (A : Type) : Type :=
| Normal (a : A)
| Abrupt (e : Thrown).
Arguments Normal {A} a.
Arguments Abrupt {A} e.

(** Modelled from the spec: [Shrinkable<T>], the generated value; "an
    opaque value of domain type T plus a handle to its shrink sequence",
    which only the trial driver consumes. *)
Record Shrinkable (T : Type) : Type := mkShrinkable { value : T }.
Arguments mkShrinkable {T} value.
Arguments value {T} s.

Section Property.

(** The random source [MutableRandomGenerator]: drawing from it advances
    it, so [generate] takes it and hands it back. *)
Context {MutableRandomGenerator : Type}.

(** Modelled from the spec: [Arbitrary<T>], by its [generate] method,
    "generate(randomSource) -> GeneratedValue<T>". *)
Record Arbitrary (T : Type) : Type := mkArbitrary {
  generate : MutableRandomGenerator -> Completion (Shrinkable T) * MutableRandomGenerator
}.
Arguments mkArbitrary {T} generate.
Arguments generate {T} a mrng.

(** The class [AsyncProperty<Ts>]: its two read-only fields. *)
Record AsyncProperty (Ts : Type) : Type := mkAsyncProperty {
  arb : Arbitrary Ts;
  predicate : Ts -> Promise PredicateOutput
}.
Arguments mkAsyncProperty {Ts} arb predicate.
Arguments arb {Ts} a.
Arguments predicate {Ts} a.

Definition isAsync {Ts} (self : AsyncProperty Ts) : bool := true.

Definition AsyncProperty_generate {Ts} (self : AsyncProperty Ts)
    (mrng : MutableRandomGenerator)
    : Completion (Shrinkable Ts) * MutableRandomGenerator :=
  generate (arb self) mrng.

(** [run] returns [null] for a passing value and the description of the
    failure otherwise. *)
Definition Pass : option string := None.
Definition Fail (description : string) : option string := Some description.

(** [err.stack] as a condition: a string that is not empty. *)
Definition truthy_stack (stack : option string) : bool :=
  match stack with
  | Some s => negb (bool_decide (s = EmptyString))
  | None => false
  end.

Definition AsyncProperty_run {Ts} (self : AsyncProperty Ts) (v : Ts)
    : Promise (option string) :=
  match predicate self v with
  | Resolved output =>
      Resolved (if looseEq_null output || looseEq_true output
                then Pass
                else Fail "Property failed by returning false")
  | Rejected err =>
      match err with
      | JsError _ _ stack =>
          if truthy_stack stack
          then Resolved (Fail (Thrown_toString err +:+ LF +:+ LF +:+ "Stack trace: " +:+
                               String_orUndefined stack))
          else Resolved (Fail (Thrown_toString err))
      | JsOther _ => Resolved (Fail (Thrown_toString err))
      end
  | Pending => Pending
  end.

(** Generated values are dynamically typed; [undefined] is what reading a
    tuple past its end yields. *)
Context {V : Type} (undefined : V).

(** The [TypeError] the engine throws when a value that is not a function is
    called, or a method is called on a value that lacks it. *)
Context (typeError : Thrown).

(** An argument of [asyncProperty] past the first: an arbitrary or a
    predicate. *)
Inductive Arg : Type :=
| IsArbitrary (a : Arbitrary V)
| IsFunction (f : list V -> Promise PredicateOutput).

(** [t[i]]. *)
Definition at_ (t : list V) (i : nat) : V := nth i t undefined.

(** [p(x1, ..., xn)] for [p] cast to a function type. *)
Definition call (p : Arg) (args : list V) : Promise PredicateOutput :=
  match p with
  | IsFunction f => f args
  | IsArbitrary _ => Rejected typeError
  end.

(** Modelled from the spec: [tuple] of [TupleArbitrary], which is not part
    of the sources at hand. "Build one composite generator by point-wise
    generating each of the n generators and packaging results as an ordered
    fixed-size sequence": the generators draw from the random source one
    after the other in argument order. An argument that is not an arbitrary
    (it was only cast to one) has no [generate] to call. *)
Fixpoint tuple_generate (arbs : list (option Arg)) (mrng : MutableRandomGenerator)
    : Completion (list V) * MutableRandomGenerator :=
  match arbs with
  | [] => (Normal [], mrng)
  | Some (IsArbitrary a) :: arbs =>
      match generate a mrng with
      | (Normal s, mrng) =>
          match tuple_generate arbs mrng with
          | (Normal vs, mrng) => (Normal (value s :: vs), mrng)
          | (Abrupt e, mrng) => (Abrupt e, mrng)
          end
      | (Abrupt e, mrng) => (Abrupt e, mrng)
      end
  | _ :: _ => (Abrupt typeError, mrng)
  end.

Definition tuple (arbs : list (option Arg)) : Arbitrary (list V) :=
  mkArbitrary (fun mrng =>
    match tuple_generate arbs mrng with
    | (Normal vs, mrng) => (Normal (mkShrinkable vs), mrng)
    | (Abrupt e, mrng) => (Abrupt e, mrng)
    end).

Local Notation "t .[ i ]" := (at_ t i) (at level 1, left associativity, format "t .[ i ]").

(** The implementation signature of [asyncProperty]: [arb1] is an
    arbitrary, [arb2] an arbitrary or a predicate, [arb3] to [arb9] are
    optional and likewise, [predicate] is an optional function. *)
Definition asyncProperty
    (arb1 : Arbitrary V) (arb2 : Arg)
    (arb3 arb4 arb5 arb6 arb7 arb8 arb9 : option Arg)
    (predicate : option (list V -> Promise PredicateOutput))
    : AsyncProperty (list V) :=
  let arb1 := Some (IsArbitrary arb1) in
  match predicate with
  | Some p =>
      mkAsyncProperty
        (tuple [arb1; Some arb2; arb3; arb4; arb5; arb6; arb7; arb8; arb9])
        (fun t => p [t.[0]; t.[1]; t.[2]; t.[3]; t.[4]; t.[5]; t.[6]; t.[7]; t.[8]])
  | None =>
  match arb9 with
  | Some p =>
      mkAsyncProperty
        (tuple [arb1; Some arb2; arb3; arb4; arb5; arb6; arb7; arb8])
        (fun t => call p [t.[0]; t.[1]; t.[2]; t.[3]; t.[4]; t.[5]; t.[6]; t.[7]])
  | None =>
  match arb8 with
  | Some p =>
      mkAsyncProperty
        (tuple [arb1; Some arb2; arb3; arb4; arb5; arb6; arb7])
        (fun t => call p [t.[0]; t.[1]; t.[2]; t.[3]; t.[4]; t.[5]; t.[6]])
  | None =>
  match arb7 with
  | Some p =>
      mkAsyncProperty
        (tuple [arb1; Some arb2; arb3; arb4; arb5; arb6])
        (fun t => call p [t.[0]; t.[1]; t.[2]; t.[3]; t.[4]; t.[5]])
  | None =>
  match arb6 with
  | Some p =>
      mkAsyncProperty
        (tuple [arb1; Some arb2; arb3; arb4; arb5])
        (fun t => call p [t.[0]; t.[1]; t.[2]; t.[3]; t.[4]])
  | None =>
  match arb5 with
  | Some p =>
      mkAsyncProperty
        (tuple [arb1; Some arb2; arb3; arb4])
        (fun t => call p [t.[0]; t.[1]; t.[2]; t.[3]])
  | None =>
  match arb4 with
  | Some p =>
      mkAsyncProperty
        (tuple [arb1; Some arb2; arb3])
        (fun t => call p [t.[0]; t.[1]; t.[2]])
  | None =>
  match arb3 with
  | Some p =>
      mkAsyncProperty
        (tuple [arb1; Some arb2])
        (fun t => call p [t.[0]; t.[1]])
  | None =>
      let p := arb2 in
      mkAsyncProperty (tuple [arb1]) (fun t => call p [t.[0]])
  end end end end end end end end.

(** The nine declared overloads: one to nine arbitraries, then the
    predicate. *)
Definition overload (arbs : list (Arbitrary V))
    (predicate : list V -> Promise PredicateOutput) : option (AsyncProperty (list V)) :=
  let A a := Some (IsArbitrary a) in
  let F := IsFunction predicate in
  match arbs with
  | [a1] =>
      Some (asyncProperty a1 F None None None None None None None None)
  | [a1; a2] =>
      Some (asyncProperty a1 (IsArbitrary a2) (Some F) None None None None None None None)
  | [a1; a2; a3] =>
      Some (asyncProperty a1 (IsArbitrary a2) (A a3) (Some F) None None None None None None)
  | [a1; a2; a3; a4] =>
      Some (asyncProperty a1 (IsArbitrary a2) (A a3) (A a4) (Some F) None None None None None)
  | [a1; a2; a3; a4; a5] =>
      Some (asyncProperty a1 (IsArbitrary a2) (A a3) (A a4) (A a5) (Some F)
              None None None None)
  | [a1; a2; a3; a4; a5; a6] =>
      Some (asyncProperty a1 (IsArbitrary a2) (A a3) (A a4) (A a5) (A a6) (Some F)
              None None None)
  | [a1; a2; a3; a4; a5; a6; a7] =>
      Some (asyncProperty a1 (IsArbitrary a2) (A a3) (A a4) (A a5) (A a6) (A a7) (Some F)
              None None)
  | [a1; a2; a3; a4; a5; a6; a7; a8] =>
      Some (asyncProperty a1 (IsArbitrary a2) (A a3) (A a4) (A a5) (A a6) (A a7) (A a8)
              (Some F) None)
  | [a1; a2; a3; a4; a5; a6; a7; a8; a9] =>
      Some (asyncProperty a1 (IsArbitrary a2) (A a3) (A a4) (A a5) (A a6) (A a7) (A a8)
              (A a9) (Some predicate))
  | _ => None
  end.

(** Drawing from the generators one after the other, first to last, unless
    one of them throws. *)
Fixpoint drawAll (arbs : list (Arbitrary V)) (mrng : MutableRandomGenerator)
    : option (list V * MutableRandomGenerator) :=
  match arbs with
  | [] => Some ([], mrng)
  | a :: arbs =>
      match generate a mrng with
      | (Normal s, mrng) =>
          match drawAll arbs mrng with
          | Some (vs, mrng) => Some (value s :: vs, mrng)
          | None => None
          end
      | (Abrupt _, _) => None
      end
  end.

(** The ten argument slots of a call, first to last. *)
Definition arguments
    (arb1 : Arbitrary V) (arb2 : Arg)
    (arb3 arb4 arb5 arb6 arb7 arb8 arb9 : option Arg)
    (predicate : option (list V -> Promise PredicateOutput)) : list (option Arg) :=
  [Some (IsArbitrary arb1); Some arb2; arb3; arb4; arb5; arb6; arb7; arb8; arb9;
   option_map IsFunction predicate].

(** The slots of a call through one of the overloads. *)
Definition overloadArguments (arbs : list (Arbitrary V))
    (predicate : list V -> Promise PredicateOutput) : list (option Arg) :=
  map (fun a => Some (IsArbitrary a)) arbs ++ [Some (IsFunction predicate)]
    ++ replicate (9 - length arbs) None.

Definition callable (slot : option Arg) : bool :=
  match slot with
  | Some (IsFunction _) => true
  | _ => false
  end.

Definition present (slot : option Arg) : bool :=
  match slot with
  | Some _ => true
  | None => false
  end.

(** The highest position, counted from [position] for the head of [slots],
    whose slot passes [test]. *)
Fixpoint highestSlot (test : option Arg -> bool) (slots : list (option Arg))
    (position : nat) : option nat :=
  match slots with
  | [] => None
  | slot :: slots =>
      match highestSlot test slots (S position) with
      | Some k => Some k
      | None => if test slot then Some position else None
      end
  end.

(** Resolution as the specification words it: the highest position, past
    the first argument, that holds a callable value. *)
Definition resolveByCallable (args : list (option Arg)) : option nat :=
  highestSlot callable (drop 1 args) 1.

(** Resolution by presence: the highest position past the second argument
    that holds a value at all, and the second argument when there is none. *)
Definition resolveByPresence (args : list (option Arg)) : nat :=
  match highestSlot present (drop 2 args) 2 with
  | Some k => k
  | None => 1
  end.

(** The property that takes the slot at position [k] for its predicate and
    the [k] slots before it for its generators. *)
Definition bound (k : nat) (args : list (option Arg)) : AsyncProperty (list V) :=
  mkAsyncProperty
    (tuple (take k args))
    (fun t =>
       match args !! k with
       | Some (Some p) => call p (map (at_ t) (seq 0 k))
       | _ => Rejected typeError
       end).

End Property.

Arguments mkArbitrary {MutableRandomGenerator T} generate.
Arguments generate {MutableRandomGenerator T} a mrng.
Arguments mkAsyncProperty {MutableRandomGenerator Ts} arb predicate.
Arguments arb {MutableRandomGenerator Ts} a.
Arguments predicate {MutableRandomGenerator Ts} a.

End AsyncProperty.

(** ** Sample data *)

Module Examples.
Import Js RunDetailsFormatter.

(** A value formatter for integers. *)
Definition stringifyZ (v : option Z) : string :=
  match v with
  | Some z => pretty z
  | None => "null"
  end.

(** A run of two trials: the value 1 passed, the value 2 failed; neither
    was shrunk. The array of roots is at reference 1. *)
Definition passed : ExecutionTree Z := mkExecutionTree Success 1%Z 2%positive.
Definition broke : ExecutionTree Z := mkExecutionTree Failure 2%Z 3%positive.

Definition twoRoots : State Z :=
  mkState (<[1%positive := [passed; broke]]>
             (<[2%positive := []]> (<[3%positive := []]> ∅))) [].

Definition twoRootsForest : list (@Tree Z) :=
  [Node Success 1%Z 2%positive []; Node Failure 2%Z 3%positive []].

(** A run whose first trial failed on 7 and was shrunk to 5 after 6 was
    skipped, followed by a passing trial. *)
Definition shrunk : State Z :=
  mkState (<[1%positive := [mkExecutionTree Failure 7%Z 2%positive;
                            mkExecutionTree Success 1%Z 3%positive]]>
             (<[2%positive := [mkExecutionTree Skipped 6%Z 4%positive;
                               mkExecutionTree Failure 5%Z 5%positive]]>
                (<[3%positive := []]> (<[4%positive := []]> (<[5%positive := []]> ∅)))))
          [].

Definition shrunkForest : list (@Tree Z) :=
  [Node Failure 7%Z 2%positive
     [Node Skipped 6%Z 4%positive []; Node Failure 5%Z 5%positive []];
   Node Success 1%Z 3%positive []].

(** Run details over the store [twoRoots]. *)
Definition foundCounterexample : RunDetails Z :=
  mkRunDetails true false 2 0 0 42 (Some 2%Z) (Some "1") (Some "Error: boom")
    [2%Z] VeryVerbose 1%positive.

Definition tooManySkips : RunDetails Z :=
  mkRunDetails true false 0 101 0 42 None None None [] NoVerbosity 1%positive.

Definition succeeded : RunDetails Z :=
  mkRunDetails false false 100 0 0 42 None None None [] NoVerbosity 1%positive.

(** A failed run over tuples of two integers, with the counterexample
    [(3, 4)], and a callback that explains it. *)
Definition failedPair : RunDetails (list Z) :=
  mkRunDetails true false 5 0 2 42 (Some [3%Z; 4%Z]) (Some "4:1") (Some "Error: boom")
    [] NoVerbosity 1%positive.

Definition skippedPair : RunDetails (list Z) :=
  mkRunDetails true false 0 101 0 42 None None None [] NoVerbosity 1%positive.

Definition checkGives (out : RunDetails (list Z)) (property : unit)
    (params : option unit) : Promise (RunDetails (list Z)) :=
  Resolved out.

Definition genericMessage (out : RunDetails (list Z)) : option string :=
  Some "Property failed".

Definition explain (generatedValues : list Z) : Promise string :=
  Resolved ("got " +:+ Js.join ", " (map pretty generatedValues)).

Definition neverCalled (generatedValues : list Z) : Promise string :=
  Resolved "unused".

Definition noTrials : State (list Z) := mkState ∅ [].

End Examples.

Module PropertyExamples.
Import Js AsyncProperty.

(** Generated values: numbers, and [undefined]. *)
Inductive JsValue : Type :=
| JsUndefined
| JsNumber (n : Z).

(** A random source that is a counter, and two arbitraries over it. *)
Definition counting : Arbitrary JsValue :=
  mkArbitrary (fun mrng : nat => (Normal (mkShrinkable (JsNumber (Z.of_nat mrng))), S mrng)).

Definition tenfold : Arbitrary JsValue :=
  mkArbitrary (fun mrng : nat => (Normal (mkShrinkable (JsNumber (10 * Z.of_nat mrng))), S mrng)).

Definition notAFunction : Thrown :=
  JsError "TypeError" "p is not a function" (Some "TypeError: p is not a function at run").

(** Predicates: one that accepts everything, one that rejects everything,
    one that throws, one that wants its first argument below its second. *)
Definition accepts (args : list JsValue) : Promise PredicateOutput :=
  Resolved (Bool true).

Definition rejects (args : list JsValue) : Promise PredicateOutput :=
  Resolved (Bool false).

Definition throws (args : list JsValue) : Promise PredicateOutput :=
  Rejected (JsError "Error" "boom" (Some "Error: boom at predicate (test.js:3:9)")).

Definition ascending (args : list JsValue) : Promise PredicateOutput :=
  match args with
  | [JsNumber a; JsNumber b] => Resolved (Bool (bool_decide (a < b)%Z))
  | _ => Resolved Undefined
  end.

End PropertyExamples.

(** ** Shapes of reports and stores *)

Module Shapes.
Import Js RunDetailsFormatter.



(** Two stores hold the same arrays, with the same elements up to their
    order. *)
Definition reordered {Ts : Type} (h h' : gmap ref (list (ExecutionTree Ts))) : Prop :=
  forall a,
    match h !! a, h' !! a with
    | Some elts, Some elts' => elts ≡ₚ elts'
    | None, None => True
    | _, _ => False
    end.

(** The text for the summary of a forest. *)
Definition summaryText {Ts : Type} (stringify : option Ts -> string)
    (forest : list (@Tree Ts)) : string :=
  "Execution summary:" +:+ LF +:+
  join LF (map (summaryLine stringify) (forest_preorder forest)).

(** One line per failure, each opened by a line feed and a dash. *)
Definition bulletLines {Ts : Type} (stringify : option Ts -> string)
    (failures : list Ts) : string :=
  String.concat EmptyString
    (map (fun f => LF +:+ "- " +:+ stringify (Some f)) failures).

End Shapes.

Module MoreExamples.
Import Js RunDetailsFormatter AsyncProperty.

(** A callback whose promise rejects, and its reason. *)
Definition refusal : Thrown := JsOther "cannot explain".

Definition refuses (generatedValues : list Z) : Promise string :=
  Rejected refusal.

(** A driver whose promise rejects. *)
Definition brokenDriver : Thrown := JsError "Error" "driver crashed" None.

(** A run that did not fail, over tuples. *)
Definition passedPair : RunDetails (list Z) :=
  mkRunDetails false false 100 0 0 42 None None None [] NoVerbosity 1%positive.

(** An interrupted run: no counterexample. *)
Definition interruptedPair : RunDetails (list Z) :=
  mkRunDetails true true 17 0 0 42 None None None [] NoVerbosity 1%positive.

(** A formatter of run details that has nothing to say. *)
Definition noMessage (out : RunDetails (list Z)) : option string := None.

(** A predicate that throws a string, and one that throws an error without
    a stack. *)
Definition throwsText (args : list PropertyExamples.JsValue) : Promise PredicateOutput :=
  Rejected (JsOther "not today").

Definition throwsBare (args : list PropertyExamples.JsValue) : Promise PredicateOutput :=
  Rejected (JsError "RangeError" "too big" None).

(** A store with the forest of [Examples.shrunk] and one more array, at
    reference 9, that belongs to no tree of it. *)
Definition withStranger : State Z :=
  mkState (<[9%positive := [Examples.passed; Examples.broke]]> (heap Examples.shrunk)) [].

(** Run details over [Examples.shrunk] at the three verbosities. *)
Definition quietFailure : RunDetails Z :=
  mkRunDetails true false 2 0 2 42 (Some 5%Z) (Some "0:1") (Some "Error: boom")
    [7%Z; 5%Z] NoVerbosity 1%positive.


Definition loudFailure : RunDetails Z :=
  mkRunDetails true false 2 0 2 42 (Some 5%Z) (Some "0:1") (Some "Error: boom")
    [7%Z; 5%Z] VeryVerbose 1%positive.

End MoreExamples.

(** * Properties *)

(** ** The execution summary *)

Module SummaryFacts.
Import Js RunDetailsFormatter.

Section Facts.
Context {Ts : Type} (stringify : option Ts -> string).

Local Abbreviation store := (gmap ref (list (ExecutionTree Ts))).

(** Induction on trees, with the hypothesis for every child. *)
Lemma Tree_induction (P : @Tree Ts -> Prop) :
  (forall s v a cs, Forall P cs -> P (Node s v a cs)) ->
  forall t, P t.
Proof.
  intros step. fix IH 1. intros [s v a cs]. apply step.
  induction cs as [|c cs IHcs]; constructor; [apply IH | exact IHcs].
Qed.

Lemma pop_nil {A} : pop (@nil A) = None.
Proof. reflexivity. Qed.

Lemma pop_reverse_cons {A} (x : A) (l : list A) :
  pop (reverse (x :: l)) = Some (x, reverse l).
Proof. unfold pop. rewrite reverse_involutive. reflexivity. Qed.

Lemma map_reverse {A B} (f : A -> B) (l : list A) :
  map f (reverse l) = reverse (map f l).
Proof. exact (fmap_reverse f l). Qed.

Lemma foldl_push {A B} (f : B -> A) (trees : list B) (remaining : list A) :
  foldl (fun r tree => push r (f tree)) remaining trees = remaining ++ map f trees.
Proof.
  revert remaining. induction trees as [|t trees IH]; intros remaining; simpl.
  - by rewrite app_nil_r.
  - rewrite IH. unfold push. by rewrite <- app_assoc.
Qed.

Lemma leftPadding_indentation (depth : nat) :
  leftPadding depth = indentation (depth - 1).
Proof.
  unfold leftPadding, join. destruct depth as [|depth]; [reflexivity|].
  simpl. rewrite Nat.sub_0_r.
  induction depth as [|depth IH]; [reflexivity|].
  change (replicate (S (S depth)) EmptyString) with (EmptyString :: replicate (S depth) EmptyString).
  simpl in *. by rewrite IH.
Qed.

Lemma stored_frame (h : store) (a : ref) (elts : list (ExecutionTree Ts)) (t : Tree) :
  stored h t -> a ∉ refs t -> stored (<[a := elts]> h) t.
Proof.
  induction t as [s v b cs IH] using Tree_induction.
  intros Hst Hnot. inversion Hst as [s' v' b' cs' Hb Hcs]; subst.
  simpl in Hnot. apply not_elem_of_cons in Hnot as [Hne Hnot].
  constructor.
  - by rewrite lookup_insert_ne.
  - rewrite Forall_forall in IH, Hcs. apply Forall_forall. intros c Hc.
    apply IH; [done | by apply Hcs |].
    intros Hin. apply Hnot. apply list_elem_of_In, in_flat_map.
    exists c. split; by apply list_elem_of_In.
Qed.

Lemma summaryLoop_unfold (fuel : nat) (remaining : list (nat * ExecutionTree Ts))
    (lines : list string) :
  summaryLoop stringify fuel remaining lines =
  match pop remaining with
  | None => ret lines
  | Some ((currentDepth, currentTree), remaining) =>
      match fuel with
      | O => diverge
      | S fuel =>
          do reversed <- Array_reverse (children currentTree);
          do trees <- Array_elements reversed;
          summaryLoop stringify fuel
            (foldl (fun r tree => push r (currentDepth + 1, tree)) remaining trees)
            (push lines
               (leftPadding currentDepth +:+ statusIcon (status currentTree)
                  +:+ " " +:+ stringify (Some (value currentTree))))
      end
  end.
Proof. destruct fuel; reflexivity. Qed.

Lemma forest_nodes_cons (t : @Tree Ts) (forest : list Tree) :
  forest_nodes (t :: forest) = nodes t + forest_nodes forest.
Proof. reflexivity. Qed.

Lemma forest_nodes_app (f1 f2 : list (@Tree Ts)) :
  forest_nodes (f1 ++ f2) = forest_nodes f1 + forest_nodes f2.
Proof.
  unfold forest_nodes. rewrite map_app.
  induction (map nodes f1) as [|n l IH]; simpl; lia.
Qed.

Lemma children_at_depth (d : nat) (cs : list (@Tree Ts)) :
  map snd (map (fun c => (d, c)) cs) = cs.
Proof. rewrite map_map. simpl. apply map_id. Qed.

Lemma work_lines_children (d : nat) (cs : list (@Tree Ts)) :
  work_lines stringify (map (fun c => (d, c)) cs)
  = map (summaryLine stringify) (flat_map (preorder d) cs).
Proof.
  unfold work_lines. induction cs as [|c cs IH]; simpl; [reflexivity|].
  by rewrite map_app, IH.
Qed.

Lemma work_lines_app (w1 w2 : list (nat * @Tree Ts)) :
  work_lines stringify (w1 ++ w2) = work_lines stringify w1 ++ work_lines stringify w2.
Proof. unfold work_lines. apply flat_map_app. Qed.

Lemma node_of_mirror (t : @Tree Ts) : node_of (mirror t) = node_of t.
Proof. by destruct t. Qed.

Lemma node_of_mirror_forest (forest : list (@Tree Ts)) :
  map node_of (mirror_forest forest) = reverse (map node_of forest).
Proof.
  unfold mirror_forest. rewrite <- map_reverse, <- map_reverse, map_map.
  apply map_ext. intros t. apply node_of_mirror.
Qed.

Lemma not_in_forest (a : ref) (forest : list (@Tree Ts)) (t : Tree) :
  a ∉ flat_map refs forest -> t ∈ forest -> a ∉ refs t.
Proof.
  intros Hnot Ht Hin. apply Hnot. apply list_elem_of_In, in_flat_map.
  exists t. split; by apply list_elem_of_In.
Qed.

(** The loop renders the trees on its stack in pre-order, top first, when
    the store holds them unshared and the fuel covers their nodes. It
    leaves the call trace and the arrays of other trees as they were, and
    the arrays of the trees it rendered reversed. *)
Lemma summaryLoop_spec (fuel : nat) :
  forall (work : list (nat * Tree)) (st : State Ts) (lines : list string),
    Forall (stored (heap st)) (map snd work) ->
    NoDup (flat_map refs (map snd work)) ->
    forest_nodes (map snd work) <= fuel ->
    exists st',
      summaryLoop stringify fuel (reverse (map entry_of work)) lines st
      = (Returned (lines ++ work_lines stringify work), st')
      /\ trace st' = trace st
      /\ (forall b, b ∉ flat_map refs (map snd work) -> heap st' !! b = heap st !! b)
      /\ Forall (stored (heap st')) (map mirror (map snd work)).
Proof.
  induction fuel as [|fuel IH]; intros work st lines Hst Hnd Hfuel;
    destruct work as [|[d [s v a cs]] rest].
  - exists st. rewrite summaryLoop_unfold. simpl. by rewrite app_nil_r.
  - simpl in Hfuel. rewrite forest_nodes_cons in Hfuel. simpl in Hfuel. lia.
  - exists st. rewrite summaryLoop_unfold. simpl. by rewrite app_nil_r.
  - rewrite summaryLoop_unfold. rewrite map_cons, pop_reverse_cons.
    simpl in Hst, Hnd, Hfuel.
    apply Forall_cons in Hst as [Hnode Hrest].
    inversion Hnode as [s' v' a' cs' Ha Hcs]; subst.
    apply NoDup_cons in Hnd as [Hfresh Hnd].
    rewrite forest_nodes_cons in Hfuel. simpl in Hfuel.
    set (st1 := mkState (<[a := reverse (map node_of cs)]> (heap st)) (trace st)).
    destruct (IH (map (fun c => (S d, c)) cs ++ rest) st1
                (push lines (summaryLine stringify (d, s, v))))
      as (st' & Hrun & Htrace & Hframe & Hmirror).
    + rewrite map_app, children_at_depth. apply Forall_app. split.
      * apply Forall_forall. intros c Hc. apply stored_frame.
        -- rewrite Forall_forall in Hcs. by apply Hcs.
        -- apply (not_in_forest a cs c); [|exact Hc].
           intros Hin. apply Hfresh. apply elem_of_app. by left.
      * apply Forall_forall. intros t Ht. apply stored_frame.
        -- rewrite Forall_forall in Hrest. by apply Hrest.
        -- apply (not_in_forest a (map snd rest) t); [|exact Ht].
           intros Hin. apply Hfresh. apply elem_of_app. by right.
    + rewrite map_app, children_at_depth, flat_map_app. exact Hnd.
    + rewrite map_app, children_at_depth, forest_nodes_app.
      fold (forest_nodes cs) in Hfuel. lia.
    + rewrite map_app, children_at_depth in Hframe, Hmirror.
      rewrite flat_map_app in Hframe. rewrite map_app in Hmirror.
      apply Forall_app in Hmirror as [Hmirror_cs Hmirror_rest].
      exists st'. split; [|split; [exact Htrace|split]].
      * unfold bind at 1. unfold Array_reverse. simpl. rewrite Ha.
        unfold bind at 1. unfold Array_elements. simpl. rewrite lookup_insert_eq.
        fold st1. rewrite foldl_push.
        replace (reverse (map entry_of rest) ++
                 map (pair (d + 1)) (reverse (map node_of cs)))
          with (reverse (map entry_of (map (fun c => (S d, c)) cs ++ rest))).
        2:{ rewrite map_app, reverse_app. f_equal.
            rewrite map_map. unfold entry_of. simpl.
            rewrite <- map_reverse, <- (map_reverse node_of cs), map_map.
            apply map_ext. intros c. by rewrite Nat.add_1_r. }
        rewrite leftPadding_indentation.
        change (indentation (d - 1) +:+ statusIcon s +:+ " " +:+ stringify (Some v))
          with (summaryLine stringify (d, s, v)).
        rewrite Hrun. f_equal. unfold push.
        rewrite work_lines_app, work_lines_children. simpl.
        rewrite <- app_assoc. reflexivity.
      * intros b Hb. simpl in Hb. apply not_elem_of_cons in Hb as [Hne Hb].
        rewrite (Hframe b Hb). simpl. by rewrite lookup_insert_ne.
      * simpl. constructor; [|exact Hmirror_rest].
        constructor.
        -- rewrite (Hframe a Hfresh). simpl. rewrite lookup_insert_eq.
           f_equal. symmetry. apply node_of_mirror_forest.
        -- by apply Forall_reverse.
Qed.

(** Whatever the store, the loop and the summary leave the call trace
    alone. *)
Lemma summaryLoop_trace (fuel : nat) :
  forall (remaining : list (nat * ExecutionTree Ts)) (lines : list string) (st : State Ts),
    trace (snd (summaryLoop stringify fuel remaining lines st)) = trace st.
Proof.
  induction fuel as [|fuel IH]; intros remaining lines st;
    rewrite summaryLoop_unfold;
    destruct (pop remaining) as [[[d t] remaining']|]; try reflexivity.
  unfold bind at 1. unfold Array_reverse.
  destruct (heap st !! children t) as [elts|]; [|reflexivity].
  unfold bind at 1. unfold Array_elements. simpl. rewrite lookup_insert_eq.
  by rewrite IH.
Qed.

Lemma formatExecutionSummary_trace (fuel : nat) (executionTrees : ref) (st : State Ts) :
  trace (snd (formatExecutionSummary stringify fuel executionTrees st)) = trace st.
Proof.
  unfold formatExecutionSummary.
  unfold bind at 1. unfold Array_reverse.
  destruct (heap st !! executionTrees) as [elts|]; [|reflexivity].
  unfold bind at 1. unfold Array_elements. simpl. rewrite lookup_insert_eq.
  unfold bind at 1.
  match goal with
  | |- context [summaryLoop stringify fuel ?r ?l ?s] =>
      pose proof (summaryLoop_trace fuel r l s) as Htr;
      destruct (summaryLoop stringify fuel r l s) as [[lines| | |] st']
  end; simpl in *; exact Htr.
Qed.

Lemma preorder_length (t : @Tree Ts) : forall depth, length (preorder depth t) = nodes t.
Proof.
  induction t as [s v a cs IH] using Tree_induction. intros depth. simpl. f_equal.
  induction cs as [|c cs IHcs]; [reflexivity|].
  apply Forall_cons in IH as [Hc Hcs]. simpl.
  rewrite length_app, Hc, IHcs by exact Hcs. reflexivity.
Qed.

Lemma forest_preorder_length (forest : list (@Tree Ts)) :
  length (forest_preorder forest) = forest_nodes forest.
Proof.
  unfold forest_preorder. induction forest as [|t forest IH]; [reflexivity|].
  simpl. by rewrite length_app, preorder_length, IH.
Qed.

Lemma statusIcon_distinct (s1 s2 : ExecutionStatus) :
  statusIcon s1 = statusIcon s2 -> s1 = s2.
Proof. destruct s1, s2; vm_compute; intros H; first [reflexivity | discriminate H]. Qed.

Lemma flat_map_refs_mirror (forest : list (@Tree Ts)) :
  Forall (fun t => refs (mirror t) ≡ₚ refs t) forest ->
  flat_map refs (reverse (map mirror forest)) ≡ₚ flat_map refs forest.
Proof.
  intros Hall. rewrite (reverse_Permutation (map mirror forest)).
  induction Hall as [|t forest Ht _ IH]; [reflexivity|].
  simpl. by rewrite Ht, IH.
Qed.

Lemma refs_mirror (t : @Tree Ts) : refs (mirror t) ≡ₚ refs t.
Proof.
  induction t as [s v a cs IH] using Tree_induction. simpl.
  by rewrite flat_map_refs_mirror.
Qed.

Lemma refs_mirror_forest (forest : list (@Tree Ts)) :
  flat_map refs (mirror_forest forest) ≡ₚ flat_map refs forest.
Proof.
  apply flat_map_refs_mirror, Forall_forall. intros t _. apply refs_mirror.
Qed.

Lemma sum_list_reverse (l : list nat) : sum_list (reverse l) = sum_list l.
Proof.
  induction l as [|n l IH]; [reflexivity|].
  rewrite reverse_cons, sum_list_with_app, IH. simpl. lia.
Qed.

Lemma nodes_mirror (t : @Tree Ts) : nodes (mirror t) = nodes t.
Proof.
  induction t as [s v a cs IH] using Tree_induction. simpl. f_equal.
  rewrite <- map_reverse, map_map, <- (sum_list_reverse (map nodes cs)), <- map_reverse.
  f_equal. apply map_ext_in. intros c Hc. rewrite Forall_forall in IH.
  apply list_elem_of_In in Hc. rewrite elem_of_reverse in Hc. by apply IH.
Qed.

Lemma forest_nodes_mirror (forest : list (@Tree Ts)) :
  forest_nodes (mirror_forest forest) = forest_nodes forest.
Proof.
  unfold forest_nodes, mirror_forest.
  rewrite <- map_reverse, map_map, <- (sum_list_reverse (map nodes forest)), <- map_reverse.
  f_equal. apply map_ext. intros t. apply nodes_mirror.
Qed.

(** The summary of a forest the store holds unshared, with fuel for every
    node: the header, then the lines of the nodes in pre-order. The call
    leaves the store holding the mirrored forest. *)
Lemma formatExecutionSummary_spec (fuel : nat) (executionTrees : ref)
    (forest : list Tree) (st : State Ts) :
  represents (heap st) executionTrees forest ->
  forest_nodes forest <= fuel ->
  exists st',
    formatExecutionSummary stringify fuel executionTrees st
    = (Returned ("Execution summary:" +:+ LF +:+
                 join LF (map (summaryLine stringify) (forest_preorder forest))), st')
    /\ trace st' = trace st
    /\ represents (heap st') executionTrees (mirror_forest forest).
Proof.
  intros (Hroot & Hforest & Hnd) Hfuel.
  pose proof Hnd as Hnd_all.
  apply NoDup_cons in Hnd as [Hfresh Hnd].
  set (st1 := mkState (<[executionTrees := reverse (map node_of forest)]> (heap st))
                (trace st)).
  destruct (summaryLoop_spec fuel (map (fun t => (1, t)) forest) st1 [])
    as (st' & Hrun & Htrace & Hframe & Hmirror).
  - rewrite children_at_depth. apply Forall_forall. intros t Ht.
    apply stored_frame.
    + rewrite Forall_forall in Hforest. by apply Hforest.
    + by apply (not_in_forest executionTrees forest t).
  - by rewrite children_at_depth.
  - by rewrite children_at_depth.
  - rewrite children_at_depth in Hframe, Hmirror.
    exists st'. split; [|split; [exact Htrace|]].
    + unfold formatExecutionSummary.
      unfold bind at 1. unfold Array_reverse. rewrite Hroot.
      unfold bind at 1. unfold Array_elements. simpl. rewrite lookup_insert_eq.
      fold st1. rewrite foldl_push. simpl.
      replace (map (pair 1) (reverse (map node_of forest)))
        with (reverse (map entry_of (map (fun t => (1, t)) forest))).
      2:{ rewrite map_map. unfold entry_of. simpl.
          by rewrite <- map_reverse, <- (map_reverse node_of forest), map_map. }
      unfold bind at 1. rewrite Hrun. unfold ret. simpl.
      by rewrite work_lines_children.
    + split; [|split].
      * rewrite (Hframe executionTrees Hfresh). simpl. rewrite lookup_insert_eq.
        f_equal. symmetry. apply node_of_mirror_forest.
      * by apply Forall_reverse.
      * apply NoDup_cons. split.
        -- by rewrite refs_mirror_forest.
        -- by rewrite refs_mirror_forest.
Qed.

(** Rendering the same forest twice: the first call renders the forest, the
    second one its mirror image. *)
Lemma formatExecutionSummary_twice (fuel : nat) (executionTrees : ref)
    (forest : list Tree) (st : State Ts) :
  represents (heap st) executionTrees forest ->
  forest_nodes forest <= fuel ->
  exists st1 st2,
    formatExecutionSummary stringify fuel executionTrees st
    = (Returned ("Execution summary:" +:+ LF +:+
                 join LF (map (summaryLine stringify) (forest_preorder forest))), st1)
    /\ formatExecutionSummary stringify fuel executionTrees st1
       = (Returned ("Execution summary:" +:+ LF +:+
                    join LF (map (summaryLine stringify)
                               (forest_preorder (mirror_forest forest)))), st2)
    /\ heap st1 !! executionTrees = Some (reverse (map node_of forest)).
Proof.
  intros Hrep Hfuel.
  destruct (formatExecutionSummary_spec fuel executionTrees forest st Hrep Hfuel)
    as (st1 & Hfirst & _ & Hrep1).
  destruct (formatExecutionSummary_spec fuel executionTrees (mirror_forest forest) st1 Hrep1)
    as (st2 & Hsecond & _ & _).
  { by rewrite forest_nodes_mirror. }
  exists st1, st2. split; [exact Hfirst|]. split; [exact Hsecond|].
  destruct Hrep1 as (Hroot1 & _ & _). by rewrite Hroot1, node_of_mirror_forest.
Qed.

End Facts.

(** C5. For a forest of [k] nodes that the store holds, each node owning
    its array of children, [formatExecutionSummary] returns the header
    "Execution summary:" followed by [k] lines joined by line feeds, one
    per node in pre-order (a parent before its children, siblings in their
    order), each made of [depth - 1] copies of the marker ". ", the icon of
    the node's status, a space and the node's value as text; the three icons
    are distinct. *)
Theorem formatExecutionSummary_preorder_lines {Ts : Type}
    (stringify : option Ts -> string) (fuel : nat) (executionTrees : ref)
    (forest : list Tree) (st : State Ts) :
  represents (heap st) executionTrees forest ->
  forest_nodes forest <= fuel ->
  (exists st',
     formatExecutionSummary stringify fuel executionTrees st
     = (Returned ("Execution summary:" +:+ LF +:+
                  join LF (map (summaryLine stringify) (forest_preorder forest))), st'))
  /\ length (map (summaryLine stringify) (forest_preorder forest)) = forest_nodes forest
  /\ (forall depth s v,
        summaryLine stringify (depth, s, v)
        = indentation (depth - 1) +:+ statusIcon s +:+ " " +:+ stringify (Some v))
  /\ (forall s1 s2, statusIcon s1 = statusIcon s2 -> s1 = s2).
Proof.
  intros Hrep Hfuel. split; [|split; [|split]].
  - destruct (formatExecutionSummary_spec stringify fuel executionTrees forest st Hrep Hfuel)
      as (st' & Hrun & _).
    by exists st'.
  - by rewrite length_map, forest_preorder_length.
  - reflexivity.
  - apply statusIcon_distinct.
Qed.

Lemma shrunk_represented :
  represents (heap Examples.shrunk) 1%positive Examples.shrunkForest.
Proof.
  split; [reflexivity|]. split.
  - repeat (constructor; try reflexivity).
  - apply (bool_decide_unpack _). vm_compute. exact I.
Defined.

Lemma formatExecutionSummary_preorder_lines_witness :
  exists st',
    formatExecutionSummary Examples.stringifyZ 4 1%positive Examples.shrunk
    = (Returned ("Execution summary:" +:+ LF +:+
                 join LF (map (summaryLine Examples.stringifyZ)
                            [(1, Failure, 7%Z); (2, Skipped, 6%Z);
                             (2, Failure, 5%Z); (1, Success, 1%Z)])), st').
Proof.
  refine (proj1 (formatExecutionSummary_preorder_lines Examples.stringifyZ 4 1%positive
                   Examples.shrunkForest Examples.shrunk shrunk_represented _)).
  vm_compute. lia.
Defined.

(** C4. Rendering the same forest twice: the first call lists the two roots
    in their order, the second call lists them in the opposite order, and the
    array of roots is left reversed by the first call. *)
Theorem formatExecutionSummary_second_call_differs :
  exists st1 st2,
    formatExecutionSummary Examples.stringifyZ 2 1%positive Examples.twoRoots
    = (Returned ("Execution summary:" +:+ LF +:+
                 join LF (map (summaryLine Examples.stringifyZ)
                            [(1, Success, 1%Z); (1, Failure, 2%Z)])), st1)
    /\ formatExecutionSummary Examples.stringifyZ 2 1%positive st1
       = (Returned ("Execution summary:" +:+ LF +:+
                    join LF (map (summaryLine Examples.stringifyZ)
                               [(1, Failure, 2%Z); (1, Success, 1%Z)])), st2)
    /\ heap Examples.twoRoots !! 1%positive = Some [Examples.passed; Examples.broke]
    /\ heap st1 !! 1%positive = Some [Examples.broke; Examples.passed]
    /\ fst (formatExecutionSummary Examples.stringifyZ 2 1%positive Examples.twoRoots)
       <> fst (formatExecutionSummary Examples.stringifyZ 2 1%positive st1).
Proof.
  eexists _, _. split; [vm_compute; reflexivity|].
  split; [vm_compute; reflexivity|].
  split; [reflexivity|]. split; [reflexivity|].
  vm_compute. intros H. discriminate H.
Qed.

End SummaryFacts.


(** ** Classification and the raised report *)

Module ReportFacts.
Import Js RunDetailsFormatter SummaryFacts.

Section Facts.
Context {Ts : Type} (stringify : option Ts -> string).

Lemma append_assoc (a b c : string) : (a +:+ b) +:+ c = a +:+ (b +:+ c).
Proof.
  induction a as [|x a IH]; [reflexivity|].
  change (String x ((a +:+ b) +:+ c) = String x (a +:+ (b +:+ c))). by rewrite IH.
Qed.

Lemma append_empty_r (a : string) : a +:+ EmptyString = a.
Proof.
  induction a as [|x a IH]; [reflexivity|].
  change (String x (a +:+ EmptyString) = String x a). by rewrite IH.
Qed.

(** Entering a builder is the one event it adds to the trace. *)
Lemma preFormat_trace (b : Builder) (fuel : nat) (out : RunDetails Ts) (st : State Ts) :
  trace (snd (preFormat stringify b fuel out st)) = trace st ++ [Fired b].
Proof.
  destruct b; simpl;
    unfold preFormatTooManySkipped, preFormatFailure, preFormatEarlyInterrupted;
    unfold bind at 1; simpl;
    repeat case_decide; try reflexivity;
    unfold bind;
    match goal with
    | |- context [formatExecutionSummary stringify fuel ?a ?s] =>
        pose proof (formatExecutionSummary_trace stringify fuel a s) as Htr;
        destruct (formatExecutionSummary stringify fuel a s) as [[text| | |] st']
    end; simpl in *; exact Htr.
Qed.




(** The builder [throwIfFailed] hands a failed run to. *)
Lemma throwIfFailed_dispatch (fuel : nat) (out : RunDetails Ts) (st : State Ts) :
  failed out = true ->
  throwIfFailed stringify fuel out st
  = match preFormat stringify (selectBuilder (hasCounterexample out) (interrupted out))
            fuel out st with
    | (Returned report, st') =>
        (Raised (NewError
           (let errorMessage := message report in
            let errorMessage :=
              match details report with
              | Some details => errorMessage +:+ LF +:+ LF +:+ details
              | None => errorMessage
              end in
            if decide (0 < length (hints report))
            then errorMessage +:+ LF +:+ LF +:+ formatHints (hints report)
            else errorMessage)), st')
    | (Raised e, st') => (Raised e, st')
    | (Diverged, st') => (Diverged, st')
    | (Wild, st') => (Wild, st')
    end.
Proof.
  intros Hfailed. unfold throwIfFailed, hasCounterexample. rewrite Hfailed. simpl.
  destruct (counterexample out), (interrupted out); reflexivity.
Qed.

(** With what the store and the fuel must provide at full verbosity, every
    builder returns a report. *)
Lemma preFormat_returns (b : Builder) (fuel : nat) (out : RunDetails Ts) (st : State Ts) :
  ((VerbosityLevel_ordinal VeryVerbose <= VerbosityLevel_ordinal (verbose out))%Z ->
   renderable st fuel out) ->
  exists report st', preFormat stringify b fuel out st = (Returned report, st').
Proof.
  intros Hrender.
  destruct b; simpl;
    unfold preFormatTooManySkipped, preFormatFailure, preFormatEarlyInterrupted;
    unfold bind at 1; simpl;
    repeat case_decide; try (eexists _, _; reflexivity);
    destruct Hrender as (forest & Hrep & Hfuel); try assumption;
    unfold bind;
    match goal with
    | |- context [formatExecutionSummary stringify fuel ?a ?s] =>
        destruct (formatExecutionSummary_spec stringify fuel a forest s Hrep Hfuel)
          as (st' & -> & _)
    end; eexists _, _; reflexivity.
Qed.

Lemma Number_toString_succ (idx : nat) :
  Number_toString (Z.of_nat idx + 1) = pretty (S idx).
Proof.
  unfold Number_toString. replace (Z.of_nat idx + 1)%Z with (Z.of_nat (S idx)) by lia.
  reflexivity.
Qed.

Lemma formatHints_numbered (hints : list string) :
  length hints <> 1 ->
  formatHints hints = join LF (imap numberedHint hints).
Proof.
  intros Hlen. unfold formatHints.
  assert (imap (fun idx h =>
            "Hint (" +:+ Number_toString (Z.of_nat idx + 1) +:+ "): " +:+ h) hints
          = imap numberedHint hints) as ->.
  { apply imap_ext. intros idx h _. unfold numberedHint.
    by rewrite Number_toString_succ. }
  destruct hints as [|h1 [|h2 hints]]; [reflexivity | by destruct Hlen | reflexivity].
Qed.

(** The text [throwIfFailed] assembles is the message, then the details,
    then the hints. *)
Lemma errorMessage_errorText (report : Report) :
  (let errorMessage := message report in
   let errorMessage :=
     match details report with
     | Some details => errorMessage +:+ LF +:+ LF +:+ details
     | None => errorMessage
     end in
   if decide (0 < length (hints report))
   then errorMessage +:+ LF +:+ LF +:+ formatHints (hints report)
   else errorMessage)
  = errorText report.
Proof.
  unfold errorText, detailsText, hintsText. cbv zeta.
  destruct report as [m d hs]. cbn [message details hints].
  destruct hs as [|h1 [|h2 hs]].
  - simpl. destruct d as [d|]; by rewrite ?append_empty_r.
  - simpl. destruct d as [d|]; by rewrite ?append_assoc, ?append_empty_r.
  - rewrite (formatHints_numbered (h1 :: h2 :: hs)) by (simpl; lia).
    destruct (decide (0 < length (h1 :: h2 :: hs))) as [_|Hn]; [|simpl in Hn; lia].
    destruct d as [d|]; by rewrite ?append_assoc, ?append_empty_r.
Qed.

End Facts.

(** C1. For a failed run, [throwIfFailed] enters exactly one of the three
    report builders, and which one is read off the counterexample and the
    interrupted flag alone: the counterexample builder when a counterexample
    is present, otherwise the interrupted builder when the flag is set,
    otherwise the too-many-skips builder. *)
Theorem throwIfFailed_fires_one_builder {Ts : Type} (stringify : option Ts -> string)
    (fuel : nat) (out : RunDetails Ts) (st : State Ts) :
  failed out = true ->
  exists b,
    trace (snd (throwIfFailed stringify fuel out st)) = trace st ++ [Fired b]
    /\ b = selectBuilder (hasCounterexample out) (interrupted out)
    /\ b = match counterexample out with
           | Some _ => FailureFound
           | None => if interrupted out then EarlyInterrupted else TooManySkipped
           end.
Proof.
  intros Hfailed. eexists. split; [|split; [reflexivity|]].
  - rewrite (throwIfFailed_dispatch stringify fuel out st Hfailed).
    pose proof (preFormat_trace stringify
                  (selectBuilder (hasCounterexample out) (interrupted out)) fuel out st)
      as Htr.
    destruct (preFormat stringify _ fuel out st) as [[report|e| |] st']; exact Htr.
  - unfold selectBuilder, hasCounterexample. by destruct (counterexample out).
Qed.

Lemma throwIfFailed_fires_one_builder_witness :
  exists b,
    trace (snd (throwIfFailed Examples.stringifyZ 2 Examples.foundCounterexample
                  Examples.twoRoots))
    = trace Examples.twoRoots ++ [Fired b]
    /\ b = selectBuilder true false
    /\ b = FailureFound.
Proof.
  exact (throwIfFailed_fires_one_builder Examples.stringifyZ 2
           Examples.foundCounterexample Examples.twoRoots eq_refl).
Defined.

(** C3. [throwIfFailed] returns, leaving the state as it was, when the run
    did not fail. When it failed, it raises one error whose text is the
    message of the selected builder's report, then a blank line and the
    details when there are details, then a blank line and the hints when
    there is a hint; one hint reads "Hint: ", several read "Hint (1): ",
    "Hint (2): " and so on, one per line. At full verbosity the details are
    the execution summary, for which the store must hold the forest and the
    fuel cover its nodes. *)
Theorem throwIfFailed_raises_assembled_report {Ts : Type}
    (stringify : option Ts -> string) (fuel : nat) (out : RunDetails Ts) (st : State Ts) :
  ((VerbosityLevel_ordinal VeryVerbose <= VerbosityLevel_ordinal (verbose out))%Z ->
   renderable st fuel out) ->
  (failed out = false -> throwIfFailed stringify fuel out st = (Returned tt, st))
  /\ (failed out = true ->
      exists report st',
        preFormat stringify (selectBuilder (hasCounterexample out) (interrupted out))
          fuel out st = (Returned report, st')
        /\ throwIfFailed stringify fuel out st
           = (Raised (NewError (message report +:+ detailsText (details report)
                                  +:+ hintsText (hints report))), st'))
  /\ (forall d, detailsText (Some d) = LF +:+ LF +:+ d)
  /\ detailsText None = EmptyString
  /\ hintsText [] = EmptyString
  /\ (forall h, hintsText [h] = LF +:+ LF +:+ "Hint: " +:+ h)
  /\ (forall hs, 2 <= length hs ->
        hintsText hs
        = LF +:+ LF +:+
          join LF (imap (fun i h => "Hint (" +:+ pretty (S i) +:+ "): " +:+ h) hs)).
Proof.
  intros Hrender. repeat split.
  - intros Hfailed. unfold throwIfFailed. by rewrite Hfailed.
  - intros Hfailed.
    destruct (preFormat_returns stringify
                (selectBuilder (hasCounterexample out) (interrupted out)) fuel out st Hrender)
      as (report & st' & Hret).
    exists report, st'. split; [exact Hret|].
    rewrite (throwIfFailed_dispatch stringify fuel out st Hfailed), Hret.
    by rewrite errorMessage_errorText.
  - intros hs Hlen. destruct hs as [|h1 [|h2 hs]]; simpl in Hlen; try lia. reflexivity.
Qed.

Lemma twoRoots_renderable :
  renderable Examples.twoRoots 2 Examples.foundCounterexample.
Proof.
  exists Examples.twoRootsForest. split; [|vm_compute; lia].
  split; [reflexivity|]. split.
  - repeat (constructor; try reflexivity).
  - apply (bool_decide_unpack _). vm_compute. exact I.
Defined.

Lemma throwIfFailed_raises_assembled_report_witness :
  throwIfFailed Examples.stringifyZ 2 Examples.succeeded Examples.twoRoots
  = (Returned tt, Examples.twoRoots)
  /\ exists report st',
       preFormat Examples.stringifyZ FailureFound 2 Examples.foundCounterexample
         Examples.twoRoots = (Returned report, st')
       /\ throwIfFailed Examples.stringifyZ 2 Examples.foundCounterexample Examples.twoRoots
          = (Raised (NewError (message report +:+ detailsText (details report)
                                 +:+ hintsText (hints report))), st').
Proof.
  split.
  - refine (proj1 (throwIfFailed_raises_assembled_report Examples.stringifyZ 2
                     Examples.succeeded Examples.twoRoots _) eq_refl).
    vm_compute. intros H. by destruct H.
  - exact (proj1 (proj2 (throwIfFailed_raises_assembled_report Examples.stringifyZ 2
                           Examples.foundCounterexample Examples.twoRoots
                           (fun _ => twoRoots_renderable))) eq_refl).
Defined.

End ReportFacts.


(** ** The custom-assertion wrappers *)

Module CustomAssertFacts.
Import Js RunDetailsFormatter.

(** C9, as amended. For a failed run whose generic message is [generic]:
    the [run] method of [buildCustomAssertB] and [withCustomAssert], whose
    callback is a required argument, invoke the callback on the unpacked
    counterexample when there is one (and, for [run], when a callback was
    given) and raise an error whose text is the generic message, a blank
    line and the text the callback resolved to; without a counterexample
    (or, for [run], without a callback) they raise the generic message
    alone and invoke nothing. [customAssertA] has no callback to invoke:
    without a counterexample it raises the generic message alone, with one
    it raises the generic message, a blank line and a fixed text. *)
Theorem customAssert_family {T IAsyncProperty Parameters : Type}
    (fc_check : IAsyncProperty -> option Parameters -> Promise (RunDetails (list T)))
    (fc_formatRunDetails : RunDetails (list T) -> option string)
    (property : IAsyncProperty) (params : option Parameters)
    (out : RunDetails (list T)) (generic : string) (st : State (list T)) :
  failed out = true ->
  fc_formatRunDetails out = Some generic ->
  fc_check property params = Resolved out ->
  (forall callMethod counterexample text,
     RunDetailsFormatter.counterexample out = Some counterexample ->
     callMethod counterexample = Resolved text ->
     buildCustomAssertB_run fc_check fc_formatRunDetails property params (Some callMethod) st
     = (Raised (NewError (generic +:+ LF +:+ LF +:+ text)),
        mkState (heap st) (trace st ++ [Invoked CallMethod counterexample]))
     /\ withCustomAssert fc_formatRunDetails (Resolved out) callMethod st
        = (Raised (NewError (generic +:+ LF +:+ LF +:+ text)),
           mkState (heap st) (trace st ++ [Invoked CallMethod counterexample])))
  /\ (forall callMethod,
        callMethod = None \/ counterexample out = None ->
        buildCustomAssertB_run fc_check fc_formatRunDetails property params callMethod st
        = (Raised (NewError generic), st))
  /\ (forall callMethod,
        counterexample out = None ->
        withCustomAssert fc_formatRunDetails (Resolved out) callMethod st
        = (Raised (NewError generic), st))
  /\ (counterexample out = None ->
      customAssertA fc_check fc_formatRunDetails property params st
      = (Raised (NewError generic), st))
  /\ (forall counterexample,
        RunDetailsFormatter.counterexample out = Some counterexample ->
        customAssertA fc_check fc_formatRunDetails property params st
        = (Raised (NewError (generic +:+ LF +:+ LF +:+
                             "await callMethod(out.counterexample)")), st)).
Proof.
  intros Hfailed Hgeneric Hcheck.
  unfold buildCustomAssertB_run, withCustomAssert, customAssertA.
  rewrite Hcheck. unfold await, bind, ret, raise, emit. rewrite Hfailed, Hgeneric. simpl.
  split; [|split; [|split; [|split]]].
  - intros callMethod counterexample text Hcex Htext. rewrite Hcex. simpl.
    by rewrite Htext.
  - intros callMethod [-> | ->]; [reflexivity | by destruct callMethod].
  - by intros _ ->.
  - by intros ->.
  - by intros counterexample ->.
Qed.

Lemma customAssert_family_witness :
  buildCustomAssertB_run (Examples.checkGives Examples.failedPair) Examples.genericMessage
    tt None (Some Examples.explain) Examples.noTrials
  = (Raised (NewError ("Property failed" +:+ LF +:+ LF +:+ "got 3, 4")),
     mkState ∅ [Invoked CallMethod [3%Z; 4%Z]])
  /\ withCustomAssert Examples.genericMessage (Resolved Examples.failedPair)
       Examples.explain Examples.noTrials
     = (Raised (NewError ("Property failed" +:+ LF +:+ LF +:+ "got 3, 4")),
        mkState ∅ [Invoked CallMethod [3%Z; 4%Z]]).
Proof.
  exact (proj1 (customAssert_family (Examples.checkGives Examples.failedPair)
                  Examples.genericMessage tt None Examples.failedPair "Property failed"
                  Examples.noTrials eq_refl eq_refl eq_refl)
           Examples.explain [3%Z; 4%Z] "got 3, 4" eq_refl eq_refl).
Defined.

(** C9, as stated, fails for [customAssertA]: no callback is supplied to it,
    yet with a counterexample at hand the error it raises is not the generic
    message alone. *)
Lemma customAssertA_not_generic_alone :
  Examples.genericMessage Examples.failedPair = Some "Property failed"
  /\ fst (customAssertA (Examples.checkGives Examples.failedPair) Examples.genericMessage
            tt None Examples.noTrials)
     = Raised (NewError ("Property failed" +:+ LF +:+ LF +:+
                         "await callMethod(out.counterexample)"))
  /\ fst (customAssertA (Examples.checkGives Examples.failedPair) Examples.genericMessage
            tt None Examples.noTrials)
     <> Raised (NewError "Property failed").
Proof.
  split; [reflexivity|]. split; [reflexivity|].
  vm_compute. intros H. discriminate H.
Qed.

(** C10. For a failed run with a counterexample, [withCustomAssertB]
    invokes [config.onRunInterrupted] on the unpacked counterexample and
    nothing else, whatever the interrupted flag and the other fields say;
    the error it raises carries the generic message, a blank line and what
    that callback resolved to; the two other callbacks of [config] play no
    part in the result. *)
Theorem withCustomAssertB_only_onRunInterrupted {T : Type}
    (fc_formatRunDetails : RunDetails (list T) -> option string)
    (out : RunDetails (list T)) (config : @Config T)
    (counterexample : list T) (generic : string) (st : State (list T)) :
  failed out = true ->
  RunDetailsFormatter.counterexample out = Some counterexample ->
  fc_formatRunDetails out = Some generic ->
  trace (snd (withCustomAssertB fc_formatRunDetails (Resolved out) config st))
  = trace st ++ [Invoked OnRunInterrupted counterexample]
  /\ (forall text,
        onRunInterrupted config counterexample = Resolved text ->
        withCustomAssertB fc_formatRunDetails (Resolved out) config st
        = (Raised (NewError (generic +:+ LF +:+ LF +:+ text)),
           mkState (heap st) (trace st ++ [Invoked OnRunInterrupted counterexample])))
  /\ (forall onFailed onTooManySkip,
        withCustomAssertB fc_formatRunDetails (Resolved out)
          (mkConfig (onRunInterrupted config) onFailed onTooManySkip) st
        = withCustomAssertB fc_formatRunDetails (Resolved out) config st).
Proof.
  intros Hfailed Hcex Hgeneric.
  unfold withCustomAssertB, await, bind, ret, raise, emit.
  rewrite Hfailed, Hcex, Hgeneric. simpl.
  repeat split.
  - by destruct (onRunInterrupted config counterexample).
  - by intros text ->.
Qed.

Lemma withCustomAssertB_only_onRunInterrupted_witness :
  trace (snd (withCustomAssertB Examples.genericMessage (Resolved Examples.failedPair)
                (mkConfig Examples.explain Examples.neverCalled Examples.neverCalled)
                Examples.noTrials))
  = [Invoked OnRunInterrupted [3%Z; 4%Z]].
Proof.
  exact (proj1 (withCustomAssertB_only_onRunInterrupted Examples.genericMessage
                  Examples.failedPair
                  (mkConfig Examples.explain Examples.neverCalled Examples.neverCalled)
                  [3%Z; 4%Z] "Property failed" Examples.noTrials
                  eq_refl eq_refl eq_refl)).
Defined.

End CustomAssertFacts.

(** ** Properties and their construction *)

Module PropertyFacts.
Import Js AsyncProperty.

Section Facts.
Context {MutableRandomGenerator V : Type} (undefined : V) (typeError : Thrown).

Local Abbreviation Arb := (@Arbitrary MutableRandomGenerator V).
Local Abbreviation Slot := (option (@Arg MutableRandomGenerator V)).

Lemma tuple_generate_drawAll (arbs : list Arb) :
  forall (mrng mrng' : MutableRandomGenerator) (vs : list V),
    drawAll arbs mrng = Some (vs, mrng') ->
    tuple_generate typeError (map (fun a => Some (IsArbitrary a)) arbs) mrng
    = (Normal vs, mrng')
    /\ length vs = length arbs.
Proof.
  induction arbs as [|a arbs IH]; intros mrng mrng' vs Hdraw; simpl in *.
  - by inversion Hdraw.
  - destruct (generate a mrng) as [[s|e] mrng1]; [|discriminate].
    destruct (drawAll arbs mrng1) as [[vs1 mrng2]|] eqn:Hrest; [|discriminate].
    inversion Hdraw; subst. destruct (IH _ _ _ Hrest) as [-> Hlen].
    simpl. by rewrite Hlen.
Qed.

End Facts.

(** C2. For one to nine generators and a predicate, the matching overload
    of [asyncProperty] yields a property whose arbitrary is the tuple of the
    generators in argument order, so that [generate] hands back the tuple of
    the values the generators draw one after the other, and whose [run], on a
    tuple of as many values, is the verdict of the predicate applied to these
    values in order. *)
Theorem asyncProperty_overload_tuple_and_verdict {MutableRandomGenerator V : Type}
    (undefined : V) (typeError : Thrown)
    (arbs : list (@Arbitrary MutableRandomGenerator V))
    (f : list V -> Promise PredicateOutput) :
  1 <= length arbs <= 9 ->
  exists P,
    overload undefined typeError arbs f = Some P
    /\ arb P = tuple typeError (map (fun a => Some (IsArbitrary a)) arbs)
    /\ (forall mrng vs mrng',
          drawAll arbs mrng = Some (vs, mrng') ->
          AsyncProperty_generate P mrng = (Normal (mkShrinkable vs), mrng')
          /\ length vs = length arbs)
    /\ (forall vs,
          length vs = length arbs ->
          predicate P vs = f vs
          /\ AsyncProperty_run P vs = AsyncProperty_run (mkAsyncProperty (arb P) f) vs).
Proof.
  intros Hlen.
  assert (forall P,
            arb P = tuple typeError (map (fun a => Some (IsArbitrary a)) arbs) ->
            forall mrng vs mrng',
              drawAll arbs mrng = Some (vs, mrng') ->
              AsyncProperty_generate P mrng = (Normal (mkShrinkable vs), mrng')
              /\ length vs = length arbs) as Hgen.
  { intros P HP mrng vs mrng' Hdraw.
    destruct (tuple_generate_drawAll typeError arbs mrng mrng' vs Hdraw) as [Htuple Hvs].
    split; [|exact Hvs].
    unfold AsyncProperty_generate. rewrite HP. simpl. by rewrite Htuple. }
  do 10 (try (destruct arbs as [|? arbs]; simpl in Hlen; try lia)).
  all: eexists; split; [reflexivity|]; split; [reflexivity|]; split;
    [apply Hgen; reflexivity|].
  all: intros vs Hvs; simpl in Hvs.
  all: do 10 (try (destruct vs as [|? vs]; simpl in Hvs; try discriminate Hvs)).
  all: split; reflexivity.
Qed.

Lemma asyncProperty_overload_tuple_and_verdict_witness :
  exists P,
    overload PropertyExamples.JsUndefined PropertyExamples.notAFunction
      [PropertyExamples.counting; PropertyExamples.tenfold] PropertyExamples.ascending
    = Some P
    /\ AsyncProperty_generate P 4
       = (Normal (mkShrinkable [PropertyExamples.JsNumber 4; PropertyExamples.JsNumber 50]), 6)
    /\ AsyncProperty_run P [PropertyExamples.JsNumber 4; PropertyExamples.JsNumber 50]
       = Resolved None
    /\ AsyncProperty_run P [PropertyExamples.JsNumber 50; PropertyExamples.JsNumber 4]
       = Resolved (Some "Property failed by returning false").
Proof.
  destruct (asyncProperty_overload_tuple_and_verdict PropertyExamples.JsUndefined
              PropertyExamples.notAFunction
              [PropertyExamples.counting; PropertyExamples.tenfold]
              PropertyExamples.ascending ltac:(simpl; lia))
    as (P & HP & _ & Hgen & Hrun).
  exists P. split; [exact HP|]. split; [|split].
  - exact (proj1 (Hgen 4 [PropertyExamples.JsNumber 4; PropertyExamples.JsNumber 50] 6
                    eq_refl)).
  - rewrite (proj2 (Hrun [PropertyExamples.JsNumber 4; PropertyExamples.JsNumber 50]
                      eq_refl)).
    reflexivity.
  - rewrite (proj2 (Hrun [PropertyExamples.JsNumber 50; PropertyExamples.JsNumber 4]
                      eq_refl)).
    reflexivity.
Defined.

(** C6, as amended. [asyncProperty] looks, from the last slot downward, for
    the first slot past the second that holds a value at all, whether it can
    be called or not; that slot is taken for the predicate (the second slot
    when no later one holds a value) and every slot before it is handed to
    [tuple] as a generator. For a call through one of the nine overloads,
    that slot is the one callable argument. *)
Theorem asyncProperty_resolves_by_presence {MutableRandomGenerator V : Type}
    (undefined : V) (typeError : Thrown)
    (arb1 : @Arbitrary MutableRandomGenerator V) (arb2 : Arg)
    (arb3 arb4 arb5 arb6 arb7 arb8 arb9 : option Arg)
    (predicate : option (list V -> Promise PredicateOutput)) :
  asyncProperty undefined typeError arb1 arb2 arb3 arb4 arb5 arb6 arb7 arb8 arb9 predicate
  = bound undefined typeError
      (resolveByPresence (arguments arb1 arb2 arb3 arb4 arb5 arb6 arb7 arb8 arb9 predicate))
      (arguments arb1 arb2 arb3 arb4 arb5 arb6 arb7 arb8 arb9 predicate)
  /\ (forall arbs f,
        1 <= length arbs <= 9 ->
        arguments arb1 arb2 arb3 arb4 arb5 arb6 arb7 arb8 arb9 predicate
        = overloadArguments arbs f ->
        resolveByPresence (arguments arb1 arb2 arb3 arb4 arb5 arb6 arb7 arb8 arb9 predicate)
        = length arbs
        /\ resolveByCallable
             (arguments arb1 arb2 arb3 arb4 arb5 arb6 arb7 arb8 arb9 predicate)
           = Some (length arbs)).
Proof.
  split.
  - destruct predicate as [p|]; [reflexivity|].
    destruct arb9 as [p|]; [reflexivity|].
    destruct arb8 as [p|]; [reflexivity|].
    destruct arb7 as [p|]; [reflexivity|].
    destruct arb6 as [p|]; [reflexivity|].
    destruct arb5 as [p|]; [reflexivity|].
    destruct arb4 as [p|]; [reflexivity|].
    destruct arb3 as [p|]; reflexivity.
  - intros arbs f Hlen Hargs. unfold arguments, overloadArguments in Hargs.
    do 10 (try (destruct arbs as [|? arbs]; simpl in Hlen; try lia)).
    all: simpl in Hargs; destruct predicate; simplify_eq; split; reflexivity.
Qed.

Lemma asyncProperty_resolves_by_presence_witness :
  asyncProperty PropertyExamples.JsUndefined PropertyExamples.notAFunction
    PropertyExamples.counting (IsArbitrary PropertyExamples.tenfold)
    (Some (IsFunction PropertyExamples.ascending)) None None None None None None None
  = bound PropertyExamples.JsUndefined PropertyExamples.notAFunction 2
      (arguments PropertyExamples.counting (IsArbitrary PropertyExamples.tenfold)
         (Some (IsFunction PropertyExamples.ascending)) None None None None None None None)
  /\ resolveByCallable
       (arguments PropertyExamples.counting (IsArbitrary PropertyExamples.tenfold)
          (Some (IsFunction PropertyExamples.ascending)) None None None None None None None)
     = Some 2.
Proof.
  split.
  - exact (proj1 (asyncProperty_resolves_by_presence PropertyExamples.JsUndefined
                    PropertyExamples.notAFunction PropertyExamples.counting
                    (IsArbitrary PropertyExamples.tenfold)
                    (Some (IsFunction PropertyExamples.ascending))
                    None None None None None None None)).
  - exact (proj2 (proj2 (asyncProperty_resolves_by_presence PropertyExamples.JsUndefined
                           PropertyExamples.notAFunction PropertyExamples.counting
                           (IsArbitrary PropertyExamples.tenfold)
                           (Some (IsFunction PropertyExamples.ascending))
                           None None None None None None None)
                    [PropertyExamples.counting; PropertyExamples.tenfold]
                    PropertyExamples.ascending ltac:(simpl; lia) eq_refl)).
Defined.

(** C6, as stated, fails: with a predicate in the second slot and an
    arbitrary in the third, the highest callable slot is the second, yet the
    property that is built calls the third slot, which cannot be called, and
    hands the second to [tuple]. *)
Lemma asyncProperty_not_by_callable :
  let args :=
    arguments PropertyExamples.counting (IsFunction PropertyExamples.accepts)
      (Some (IsArbitrary PropertyExamples.tenfold)) None None None None None None None in
  resolveByCallable args = Some 1
  /\ AsyncProperty_run
       (bound PropertyExamples.JsUndefined PropertyExamples.notAFunction 1 args)
       [PropertyExamples.JsNumber 4]
     = Resolved None
  /\ AsyncProperty_run
       (asyncProperty PropertyExamples.JsUndefined PropertyExamples.notAFunction
          PropertyExamples.counting (IsFunction PropertyExamples.accepts)
          (Some (IsArbitrary PropertyExamples.tenfold)) None None None None None None None)
       [PropertyExamples.JsNumber 4]
     = Resolved (Some ("TypeError: p is not a function" +:+ LF +:+ LF +:+
                       "Stack trace: TypeError: p is not a function at run"))
  /\ asyncProperty PropertyExamples.JsUndefined PropertyExamples.notAFunction
       PropertyExamples.counting (IsFunction PropertyExamples.accepts)
       (Some (IsArbitrary PropertyExamples.tenfold)) None None None None None None None
     <> bound PropertyExamples.JsUndefined PropertyExamples.notAFunction 1 args.
Proof.
  intros args. split; [reflexivity|]. split; [reflexivity|]. split; [reflexivity|].
  intros Heq.
  apply (f_equal (fun P => AsyncProperty_run P [PropertyExamples.JsNumber 4])) in Heq.
  vm_compute in Heq. discriminate Heq.
Qed.

(** C7. Whatever the value, [run] resolves to the failure described as
    "Property failed by returning false" when the predicate resolves to
    [false], and to a pass ([null]) when it resolves to [true] or to
    [undefined]. *)
Theorem run_verdict_of_output {MutableRandomGenerator Ts : Type}
    (self : @AsyncProperty MutableRandomGenerator Ts) (v : Ts) (output : PredicateOutput) :
  predicate self v = Resolved output ->
  AsyncProperty_run self v
  = Resolved match output with
             | Bool false => Fail "Property failed by returning false"
             | Bool true => Pass
             | Undefined => Pass
             end.
Proof.
  intros Hout. unfold AsyncProperty_run. rewrite Hout.
  by destruct output as [[|]|].
Qed.

Lemma run_verdict_of_output_witness :
  AsyncProperty_run
    (mkAsyncProperty (tuple PropertyExamples.notAFunction
                        [Some (IsArbitrary PropertyExamples.counting)])
       PropertyExamples.rejects)
    [PropertyExamples.JsNumber 3]
  = Resolved (Some "Property failed by returning false")
  /\ AsyncProperty_run
       (mkAsyncProperty (tuple PropertyExamples.notAFunction
                           [Some (IsArbitrary PropertyExamples.counting)])
          PropertyExamples.ascending)
       [PropertyExamples.JsNumber 3]
     = Resolved None.
Proof.
  split.
  - exact (run_verdict_of_output
             (mkAsyncProperty (tuple PropertyExamples.notAFunction
                                 [Some (IsArbitrary PropertyExamples.counting)])
                PropertyExamples.rejects)
             [PropertyExamples.JsNumber 3] (Bool false) eq_refl).
  - exact (run_verdict_of_output
             (mkAsyncProperty (tuple PropertyExamples.notAFunction
                                 [Some (IsArbitrary PropertyExamples.counting)])
                PropertyExamples.ascending)
             [PropertyExamples.JsNumber 3] Undefined eq_refl).
Defined.

(** C8. When the predicate throws an [Error] that carries a stack trace,
    [run] resolves to the failure whose description is the string form of
    the error, a blank line, the label "Stack trace: " and the stack
    trace. *)
Theorem run_describes_thrown_error {MutableRandomGenerator Ts : Type}
    (self : @AsyncProperty MutableRandomGenerator Ts) (v : Ts)
    (name message stack : string) :
  predicate self v = Rejected (JsError name message (Some stack)) ->
  stack <> EmptyString ->
  AsyncProperty_run self v
  = Resolved (Fail (Thrown_toString (JsError name message (Some stack))
                      +:+ LF +:+ LF +:+ "Stack trace: " +:+ stack)).
Proof.
  intros Hthrow Hstack. unfold AsyncProperty_run. rewrite Hthrow.
  unfold truthy_stack. by rewrite bool_decide_eq_false_2.
Qed.

Lemma run_describes_thrown_error_witness :
  AsyncProperty_run
    (mkAsyncProperty (tuple PropertyExamples.notAFunction
                        [Some (IsArbitrary PropertyExamples.counting)])
       PropertyExamples.throws)
    [PropertyExamples.JsNumber 3]
  = Resolved (Some ("Error: boom" +:+ LF +:+ LF +:+ "Stack trace: " +:+
                    "Error: boom at predicate (test.js:3:9)")).
Proof.
  refine (run_describes_thrown_error
            (mkAsyncProperty (tuple PropertyExamples.notAFunction
                                [Some (IsArbitrary PropertyExamples.counting)])
               PropertyExamples.throws)
            [PropertyExamples.JsNumber 3] "Error" "boom"
            "Error: boom at predicate (test.js:3:9)" eq_refl _).
  intros H. discriminate H.
Defined.

End PropertyFacts.


(** ** Further properties of the execution summary *)

Module SummaryExtras.
Import Js RunDetailsFormatter Shapes SummaryFacts.

Section Facts.
Context {Ts : Type} (stringify : option Ts -> string).

Local Abbreviation store := (gmap ref (list (ExecutionTree Ts))).

Lemma reordered_refl (h : store) : reordered h h.
Proof. intros a. by destruct (h !! a). Qed.

Lemma reordered_trans (h1 h2 h3 : store) :
  reordered h1 h2 -> reordered h2 h3 -> reordered h1 h3.
Proof.
  intros H12 H23 a. specialize (H12 a). specialize (H23 a).
  destruct (h1 !! a), (h2 !! a), (h3 !! a); try done. by etrans.
Qed.

Lemma reordered_reverse (h : store) (a : ref) (elts : list (ExecutionTree Ts)) :
  h !! a = Some elts -> reordered h (<[a := reverse elts]> h).
Proof.
  intros Ha b. destruct (decide (a = b)) as [<-|Hne].
  - rewrite Ha, lookup_insert_eq. symmetry. apply reverse_Permutation.
  - rewrite lookup_insert_ne by done. by destruct (h !! b).
Qed.

Lemma summaryLoop_reordered (fuel : nat) :
  forall (remaining : list (nat * ExecutionTree Ts)) (lines : list string) (st : State Ts),
    reordered (heap st) (heap (snd (summaryLoop stringify fuel remaining lines st))).
Proof.
  induction fuel as [|fuel IH]; intros remaining lines st;
    rewrite summaryLoop_unfold;
    destruct (pop remaining) as [[[d t] remaining']|]; try apply reordered_refl.
  unfold bind at 1. unfold Array_reverse.
  destruct (heap st !! children t) as [elts|] eqn:Ht; [|apply reordered_refl].
  unfold bind at 1. unfold Array_elements. simpl. rewrite lookup_insert_eq.
  eapply reordered_trans; [by apply reordered_reverse|].
  match goal with
  | |- reordered ?h (heap (snd (summaryLoop _ _ ?r ?l ?s))) =>
      exact (IH r l s)
  end.
Qed.

Lemma mirror_involutive (t : @Tree Ts) : mirror (mirror t) = t.
Proof.
  induction t as [s v a cs IH] using Tree_induction. simpl. f_equal.
  rewrite <- map_reverse, reverse_involutive, map_map.
  rewrite <- (map_id cs) at 2. apply map_ext_in. intros c Hc.
  rewrite Forall_forall in IH. apply IH. by apply list_elem_of_In.
Qed.

Lemma mirror_forest_involutive (forest : list (@Tree Ts)) :
  mirror_forest (mirror_forest forest) = forest.
Proof.
  unfold mirror_forest. rewrite <- map_reverse, reverse_involutive, map_map.
  rewrite <- (map_id forest) at 2. apply map_ext. intros t. apply mirror_involutive.
Qed.

(** The summary of a forest the store holds, with everything the call
    leaves behind: the mirrored forest, and every other array as it was. *)
Lemma formatExecutionSummary_effect (fuel : nat) (executionTrees : ref)
    (forest : list Tree) (st : State Ts) :
  represents (heap st) executionTrees forest ->
  forest_nodes forest <= fuel ->
  exists st',
    formatExecutionSummary stringify fuel executionTrees st
    = (Returned (summaryText stringify forest), st')
    /\ represents (heap st') executionTrees (mirror_forest forest)
    /\ (forall b, b <> executionTrees -> b ∉ flat_map refs forest ->
        heap st' !! b = heap st !! b).
Proof.
  intros Hrep Hfuel.
  destruct (formatExecutionSummary_spec stringify fuel executionTrees forest st Hrep Hfuel)
    as (st' & Hrun & _ & Hrep').
  exists st'. split; [exact Hrun|]. split; [exact Hrep'|].
  intros b Hroot Hb.
  destruct Hrep as (Hlookup & Hforest & Hnd).
  apply NoDup_cons in Hnd as [Hfresh Hnd].
  set (st1 := mkState (<[executionTrees := reverse (map node_of forest)]> (heap st))
                (trace st)).
  destruct (summaryLoop_spec stringify fuel (map (fun t => (1, t)) forest) st1 [])
    as (st'' & Hloop & _ & Hframe & _).
  - rewrite children_at_depth. apply Forall_forall. intros t Ht.
    apply stored_frame.
    + rewrite Forall_forall in Hforest. by apply Hforest.
    + by apply (not_in_forest executionTrees forest t).
  - by rewrite children_at_depth.
  - by rewrite children_at_depth.
  - rewrite children_at_depth in Hframe.
    assert (st' = st'') as ->.
    { revert Hrun. unfold formatExecutionSummary.
      unfold bind at 1. unfold Array_reverse. rewrite Hlookup.
      unfold bind at 1. unfold Array_elements. simpl. rewrite lookup_insert_eq.
      fold st1. rewrite foldl_push. simpl.
      replace (map (pair 1) (reverse (map node_of forest)))
        with (reverse (map entry_of (map (fun t => (1, t)) forest))).
      2:{ rewrite map_map. unfold entry_of. simpl.
          by rewrite <- map_reverse, <- (map_reverse node_of forest), map_map. }
      unfold bind at 1. rewrite Hloop. unfold ret. simpl. by intros [= _ ->]. }
    rewrite (Hframe b Hb). simpl. by rewrite lookup_insert_ne.
Qed.

End Facts.

(** X1. Whatever the store holds (shared arrays, missing arrays, cycles) and
    however the call ends, [formatExecutionSummary] only reorders arrays:
    afterwards the store holds the same arrays, each with the same elements
    up to their order. *)
Theorem formatExecutionSummary_only_reorders {Ts : Type}
    (stringify : option Ts -> string) (fuel : nat) (executionTrees : ref)
    (st : State Ts) :
  reordered (heap st)
    (heap (snd (formatExecutionSummary stringify fuel executionTrees st))).
Proof.
  unfold formatExecutionSummary.
  unfold bind at 1. unfold Array_reverse.
  destruct (heap st !! executionTrees) as [elts|] eqn:Hroot; [|apply reordered_refl].
  unfold bind at 1. unfold Array_elements. simpl. rewrite lookup_insert_eq.
  eapply reordered_trans; [by apply reordered_reverse|].
  unfold bind at 1.
  match goal with
  | |- context [summaryLoop stringify fuel ?r ?l ?s] =>
      pose proof (summaryLoop_reordered stringify fuel r l s) as Hloop;
      destruct (summaryLoop stringify fuel r l s) as [[lines| | |] st']
  end; exact Hloop.
Qed.

(** X2. Rendering a forest leaves every array that belongs to no tree of
    the forest exactly as it was. *)
Theorem formatExecutionSummary_leaves_other_arrays {Ts : Type}
    (stringify : option Ts -> string) (fuel : nat) (executionTrees : ref)
    (forest : list Tree) (st : State Ts) (b : ref) :
  represents (heap st) executionTrees forest ->
  forest_nodes forest <= fuel ->
  b <> executionTrees ->
  b ∉ flat_map refs forest ->
  heap (snd (formatExecutionSummary stringify fuel executionTrees st)) !! b
  = heap st !! b.
Proof.
  intros Hrep Hfuel Hroot Hb.
  destruct (formatExecutionSummary_effect stringify fuel executionTrees forest st Hrep Hfuel)
    as (st' & -> & _ & Hframe).
  by apply Hframe.
Qed.

Lemma withStranger_represented :
  represents (heap MoreExamples.withStranger) 1%positive Examples.shrunkForest.
Proof.
  split; [reflexivity|]. split.
  - repeat (constructor; try reflexivity).
  - apply (bool_decide_unpack _). vm_compute. exact I.
Defined.

Lemma formatExecutionSummary_leaves_other_arrays_witness :
  heap (snd (formatExecutionSummary Examples.stringifyZ 4 1%positive
               MoreExamples.withStranger)) !! 9%positive
  = Some [Examples.passed; Examples.broke].
Proof.
  refine (formatExecutionSummary_leaves_other_arrays Examples.stringifyZ 4 1%positive
            Examples.shrunkForest MoreExamples.withStranger 9%positive
            withStranger_represented _ _ _).
  - vm_compute. lia.
  - intros H. discriminate H.
  - apply (bool_decide_unpack _). vm_compute. exact I.
Defined.

(** X3. Rendering the same forest again and again alternates between two
    texts: the second call renders the mirrored forest (siblings in the
    opposite order at every level), the second call puts every array back in
    its original order, and the third call returns the text of the first. *)
Theorem formatExecutionSummary_period_two {Ts : Type}
    (stringify : option Ts -> string) (fuel : nat) (executionTrees : ref)
    (forest : list Tree) (st : State Ts) :
  represents (heap st) executionTrees forest ->
  forest_nodes forest <= fuel ->
  exists st1 st2 st3,
    formatExecutionSummary stringify fuel executionTrees st
    = (Returned (summaryText stringify forest), st1)
    /\ formatExecutionSummary stringify fuel executionTrees st1
       = (Returned (summaryText stringify (mirror_forest forest)), st2)
    /\ formatExecutionSummary stringify fuel executionTrees st2
       = (Returned (summaryText stringify forest), st3)
    /\ represents (heap st1) executionTrees (mirror_forest forest)
    /\ represents (heap st2) executionTrees forest.
Proof.
  intros Hrep Hfuel.
  destruct (formatExecutionSummary_effect stringify fuel executionTrees forest st Hrep Hfuel)
    as (st1 & Hfirst & Hrep1 & _).
  destruct (formatExecutionSummary_effect stringify fuel executionTrees
              (mirror_forest forest) st1 Hrep1)
    as (st2 & Hsecond & Hrep2 & _).
  { by rewrite forest_nodes_mirror. }
  rewrite mirror_forest_involutive in Hrep2.
  destruct (formatExecutionSummary_effect stringify fuel executionTrees forest st2 Hrep2 Hfuel)
    as (st3 & Hthird & _ & _).
  by exists st1, st2, st3.
Qed.

Lemma formatExecutionSummary_period_two_witness :
  exists st1 st2 st3,
    formatExecutionSummary Examples.stringifyZ 4 1%positive Examples.shrunk
    = (Returned (summaryText Examples.stringifyZ Examples.shrunkForest), st1)
    /\ formatExecutionSummary Examples.stringifyZ 4 1%positive st1
       = (Returned (summaryText Examples.stringifyZ
                      (mirror_forest Examples.shrunkForest)), st2)
    /\ formatExecutionSummary Examples.stringifyZ 4 1%positive st2
       = (Returned (summaryText Examples.stringifyZ Examples.shrunkForest), st3)
    /\ represents (heap st1) 1%positive (mirror_forest Examples.shrunkForest)
    /\ represents (heap st2) 1%positive Examples.shrunkForest.
Proof.
  refine (formatExecutionSummary_period_two Examples.stringifyZ 4 1%positive
            Examples.shrunkForest Examples.shrunk shrunk_represented _).
  vm_compute. lia.
Defined.

End SummaryExtras.

(** ** Further properties of the reports *)

Module ReportExtras.
Import Js RunDetailsFormatter Shapes SummaryFacts ReportFacts SummaryExtras.

Section Facts.
Context {Ts : Type} (stringify : option Ts -> string).

Lemma bullets_joined (f : Ts) (failures : list Ts) :
  LF +:+ "- " +:+
    join (LF +:+ "- ") (map (fun f => stringify (Some f)) (f :: failures))
  = bulletLines stringify (f :: failures).
Proof.
  unfold bulletLines, join. revert f.
  induction failures as [|f2 failures IH]; intros f; [reflexivity|].
  change (LF +:+ "- " +:+
            (stringify (Some f) +:+ (LF +:+ "- ") +:+
               String.concat (LF +:+ "- ")
                 (map (fun f => stringify (Some f)) (f2 :: failures)))
          = (LF +:+ "- " +:+ stringify (Some f)) +:+ EmptyString +:+
              String.concat EmptyString
                (map (fun f => LF +:+ "- " +:+ stringify (Some f)) (f2 :: failures))).
  rewrite <- IH.
  change (EmptyString +:+ ?x) with x.
  by rewrite !append_assoc.
Qed.

(** At full verbosity a builder returns with the summary for details and
    leaves the mirrored forest in the store. *)
Lemma preFormat_at_full_verbosity (b : Builder) (fuel : nat) (out : RunDetails Ts)
    (forest : list Tree) (st : State Ts) :
  verbose out = VeryVerbose ->
  represents (heap st) (executionSummary out) forest ->
  forest_nodes forest <= fuel ->
  exists report st',
    preFormat stringify b fuel out st = (Returned report, st')
    /\ details report = Some (summaryText stringify forest)
    /\ represents (heap st') (executionSummary out) (mirror_forest forest).
Proof.
  intros Hverbose Hrep Hfuel.
  destruct b; simpl;
    unfold preFormatTooManySkipped, preFormatFailure, preFormatEarlyInterrupted;
    unfold bind at 1; simpl; rewrite Hverbose;
    (case_decide as Hlevel; [|by destruct Hlevel]);
    unfold bind;
    match goal with
    | |- context [formatExecutionSummary stringify fuel ?a ?s] =>
        destruct (formatExecutionSummary_effect stringify fuel a forest s Hrep Hfuel)
          as (st' & -> & Hrep' & _)
    end; eexists _, st'; (split; [reflexivity|]); (split; [reflexivity|exact Hrep']).
Qed.


End Facts.

(** X4. [formatFailures] writes its heading and then one line per failure,
    in order, each opened by a dash; for an empty list it still writes one
    line that holds a lone dash. *)
Theorem formatFailures_bullets {Ts : Type} (stringify : option Ts -> string)
    (failures : list Ts) :
  formatFailures stringify failures
  = "Encountered failures were:" +:+
    match failures with
    | [] => LF +:+ "- "
    | _ => bulletLines stringify failures
    end.
Proof.
  unfold formatFailures. destruct failures as [|f failures]; [reflexivity|].
  by rewrite bullets_joined.
Qed.





(** X7. At full verbosity, reporting a failed run changes the run details
    it reports on: once [throwIfFailed] has raised, the execution summary of
    the run holds the mirrored forest, its roots in the opposite order. *)
Theorem throwIfFailed_mirrors_summary {Ts : Type} (stringify : option Ts -> string)
    (fuel : nat) (out : RunDetails Ts) (forest : list Tree) (st : State Ts) :
  failed out = true ->
  verbose out = VeryVerbose ->
  represents (heap st) (executionSummary out) forest ->
  forest_nodes forest <= fuel ->
  exists report st',
    throwIfFailed stringify fuel out st = (Raised (NewError (errorText report)), st')
    /\ details report = Some (summaryText stringify forest)
    /\ represents (heap st') (executionSummary out) (mirror_forest forest)
    /\ heap st' !! executionSummary out = Some (reverse (map node_of forest)).
Proof.
  intros Hfailed Hverbose Hrep Hfuel.
  destruct (preFormat_at_full_verbosity stringify
              (selectBuilder (hasCounterexample out) (interrupted out))
              fuel out forest st Hverbose Hrep Hfuel)
    as (report & st' & Hret & Hdetails & Hrep').
  exists report, st'. split; [|split; [exact Hdetails|split; [exact Hrep'|]]].
  - rewrite (throwIfFailed_dispatch stringify fuel out st Hfailed), Hret.
    by rewrite errorMessage_errorText.
  - destruct Hrep' as (Hroot & _ & _). by rewrite Hroot, node_of_mirror_forest.
Qed.

Lemma throwIfFailed_mirrors_summary_witness :
  exists report st',
    throwIfFailed Examples.stringifyZ 4 MoreExamples.loudFailure Examples.shrunk
    = (Raised (NewError (errorText report)), st')
    /\ details report = Some (summaryText Examples.stringifyZ Examples.shrunkForest)
    /\ represents (heap st') 1%positive (mirror_forest Examples.shrunkForest)
    /\ heap st' !! 1%positive
       = Some [mkExecutionTree Success 1%Z 3%positive;
               mkExecutionTree Failure 7%Z 2%positive].
Proof.
  refine (throwIfFailed_mirrors_summary Examples.stringifyZ 4 MoreExamples.loudFailure
            Examples.shrunkForest Examples.shrunk eq_refl eq_refl shrunk_represented _).
  vm_compute. lia.
Defined.



End ReportExtras.

(** ** Further properties of the custom-assertion wrappers *)

Module CustomAssertExtras.
Import Js RunDetailsFormatter.

(** X9. When the run did not fail, every wrapper returns without raising,
    invokes no callback and leaves the state as it was. *)
Theorem customAssert_noop_on_success {T IAsyncProperty Parameters : Type}
    (fc_check : IAsyncProperty -> option Parameters -> Promise (RunDetails (list T)))
    (fc_formatRunDetails : RunDetails (list T) -> option string)
    (property : IAsyncProperty) (params : option Parameters)
    (out : RunDetails (list T)) (st : State (list T)) :
  failed out = false ->
  fc_check property params = Resolved out ->
  customAssertA fc_check fc_formatRunDetails property params st = (Returned tt, st)
  /\ (forall callMethod,
        buildCustomAssertB_run fc_check fc_formatRunDetails property params callMethod st
        = (Returned tt, st))
  /\ (forall callMethod,
        withCustomAssert fc_formatRunDetails (Resolved out) callMethod st = (Returned tt, st))
  /\ (forall config,
        withCustomAssertB fc_formatRunDetails (Resolved out) config st = (Returned tt, st)).
Proof.
  intros Hfailed Hcheck.
  unfold customAssertA, buildCustomAssertB_run, withCustomAssert, withCustomAssertB.
  rewrite Hcheck. unfold await, bind, ret. by rewrite Hfailed.
Qed.

Lemma customAssert_noop_on_success_witness :
  withCustomAssertB Examples.genericMessage (Resolved MoreExamples.passedPair)
    (mkConfig MoreExamples.refuses MoreExamples.refuses MoreExamples.refuses)
    Examples.noTrials
  = (Returned tt, Examples.noTrials).
Proof.
  exact (proj2 (proj2 (proj2
           (customAssert_noop_on_success (Examples.checkGives MoreExamples.passedPair)
              Examples.genericMessage tt None MoreExamples.passedPair Examples.noTrials
              eq_refl eq_refl)))
           (mkConfig MoreExamples.refuses MoreExamples.refuses MoreExamples.refuses)).
Defined.

(** X10. When the promise of the run rejects, every wrapper rejects with
    the very same reason: no report is built and no callback is invoked. *)
Theorem customAssert_propagates_driver_rejection {T IAsyncProperty Parameters : Type}
    (fc_check : IAsyncProperty -> option Parameters -> Promise (RunDetails (list T)))
    (fc_formatRunDetails : RunDetails (list T) -> option string)
    (property : IAsyncProperty) (params : option Parameters)
    (reason : Thrown) (st : State (list T)) :
  fc_check property params = Rejected reason ->
  customAssertA fc_check fc_formatRunDetails property params st
  = (Raised (Propagated reason), st)
  /\ (forall callMethod,
        buildCustomAssertB_run fc_check fc_formatRunDetails property params callMethod st
        = (Raised (Propagated reason), st))
  /\ (forall callMethod,
        withCustomAssert fc_formatRunDetails (Rejected reason) callMethod st
        = (Raised (Propagated reason), st))
  /\ (forall config,
        withCustomAssertB fc_formatRunDetails (Rejected reason) config st
        = (Raised (Propagated reason), st)).
Proof.
  intros Hcheck.
  unfold customAssertA, buildCustomAssertB_run, withCustomAssert, withCustomAssertB.
  by rewrite Hcheck.
Qed.

Lemma customAssert_propagates_driver_rejection_witness :
  customAssertA (fun (_ : unit) (_ : option unit) => Rejected MoreExamples.brokenDriver)
    Examples.genericMessage tt None Examples.noTrials
  = (Raised (Propagated MoreExamples.brokenDriver), Examples.noTrials).
Proof.
  exact (proj1 (customAssert_propagates_driver_rejection
                  (fun (_ : unit) (_ : option unit) => Rejected MoreExamples.brokenDriver)
                  Examples.genericMessage tt None MoreExamples.brokenDriver
                  Examples.noTrials eq_refl)).
Defined.

(** X11. When the callback that should explain the counterexample rejects,
    the wrapper rejects with the callback's reason and the report of the
    failed run is lost; the callback was invoked once, on the
    counterexample. *)
Theorem customAssert_propagates_callback_rejection {T IAsyncProperty Parameters : Type}
    (fc_check : IAsyncProperty -> option Parameters -> Promise (RunDetails (list T)))
    (fc_formatRunDetails : RunDetails (list T) -> option string)
    (property : IAsyncProperty) (params : option Parameters)
    (out : RunDetails (list T)) (counterexample : list T)
    (callMethod : list T -> Promise string) (config : @Config T)
    (reason : Thrown) (st : State (list T)) :
  failed out = true ->
  RunDetailsFormatter.counterexample out = Some counterexample ->
  fc_check property params = Resolved out ->
  callMethod counterexample = Rejected reason ->
  onRunInterrupted config counterexample = Rejected reason ->
  buildCustomAssertB_run fc_check fc_formatRunDetails property params (Some callMethod) st
  = (Raised (Propagated reason),
     mkState (heap st) (trace st ++ [Invoked CallMethod counterexample]))
  /\ withCustomAssert fc_formatRunDetails (Resolved out) callMethod st
     = (Raised (Propagated reason),
        mkState (heap st) (trace st ++ [Invoked CallMethod counterexample]))
  /\ withCustomAssertB fc_formatRunDetails (Resolved out) config st
     = (Raised (Propagated reason),
        mkState (heap st) (trace st ++ [Invoked OnRunInterrupted counterexample])).
Proof.
  intros Hfailed Hcex Hcheck Hcall Hconfig.
  unfold buildCustomAssertB_run, withCustomAssert, withCustomAssertB.
  rewrite Hcheck. unfold await, bind, ret, raise, emit.
  rewrite Hfailed, Hcex. simpl. by rewrite Hcall, Hconfig.
Qed.

Lemma customAssert_propagates_callback_rejection_witness :
  withCustomAssert Examples.genericMessage (Resolved Examples.failedPair)
    MoreExamples.refuses Examples.noTrials
  = (Raised (Propagated MoreExamples.refusal),
     mkState ∅ [Invoked CallMethod [3%Z; 4%Z]]).
Proof.
  exact (proj1 (proj2
           (customAssert_propagates_callback_rejection
              (Examples.checkGives Examples.failedPair) Examples.genericMessage tt None
              Examples.failedPair [3%Z; 4%Z] MoreExamples.refuses
              (mkConfig MoreExamples.refuses Examples.neverCalled Examples.neverCalled)
              MoreExamples.refusal Examples.noTrials
              eq_refl eq_refl eq_refl eq_refl eq_refl))).
Defined.

(** X12. For a failed run without a counterexample, [withCustomAssertB]
    invokes none of the three callbacks of its [config] and raises the
    generic message alone; so it is for interrupted runs and for runs that
    skipped too much. *)
Theorem withCustomAssertB_silent_without_counterexample {T : Type}
    (fc_formatRunDetails : RunDetails (list T) -> option string)
    (out : RunDetails (list T)) (config : @Config T) (st : State (list T)) :
  failed out = true ->
  counterexample out = None ->
  withCustomAssertB fc_formatRunDetails (Resolved out) config st
  = (Raised (NewError (Error_message (fc_formatRunDetails out))), st).
Proof.
  intros Hfailed Hcex. unfold withCustomAssertB, await, bind, ret.
  by rewrite Hfailed, Hcex.
Qed.

Lemma withCustomAssertB_silent_without_counterexample_witness :
  withCustomAssertB Examples.genericMessage (Resolved MoreExamples.interruptedPair)
    (mkConfig Examples.explain Examples.explain Examples.explain) Examples.noTrials
  = (Raised (NewError "Property failed"), Examples.noTrials).
Proof.
  exact (withCustomAssertB_silent_without_counterexample Examples.genericMessage
           MoreExamples.interruptedPair
           (mkConfig Examples.explain Examples.explain Examples.explain)
           Examples.noTrials eq_refl eq_refl).
Defined.

(** X13. The [run] method of [buildCustomAssertB], given a callback, is
    [withCustomAssert] applied to the promise of [fc.check] and that
    callback; and [withCustomAssertB] ends as [withCustomAssert] does with
    [config.onRunInterrupted] for its callback. *)
Theorem customAssert_wrappers_agree {T IAsyncProperty Parameters : Type}
    (fc_check : IAsyncProperty -> option Parameters -> Promise (RunDetails (list T)))
    (fc_formatRunDetails : RunDetails (list T) -> option string)
    (property : IAsyncProperty) (params : option Parameters)
    (callMethod : list T -> Promise string)
    (run : Promise (RunDetails (list T))) (config : @Config T) (st : State (list T)) :
  buildCustomAssertB_run fc_check fc_formatRunDetails property params (Some callMethod) st
  = withCustomAssert fc_formatRunDetails (fc_check property params) callMethod st
  /\ fst (withCustomAssertB fc_formatRunDetails run config st)
     = fst (withCustomAssert fc_formatRunDetails run (onRunInterrupted config) st).
Proof.
  split.
  - unfold buildCustomAssertB_run, withCustomAssert.
    by destruct (fc_check property params) as [out| |].
  - unfold withCustomAssertB, withCustomAssert.
    destruct run as [out| |]; [|reflexivity|reflexivity].
    unfold await, bind, ret, raise, emit.
    destruct (failed out); [|reflexivity]. simpl.
    destruct (counterexample out) as [c|]; [|reflexivity]. simpl.
    by destruct (onRunInterrupted config c).
Qed.

(** X14. When the formatter of run details has no message to give
    ([undefined]), a failed run without a counterexample is reported by an
    error with an empty text, and one with a counterexample by an error whose
    text opens with the word "undefined", then a blank line and the text of
    the callback. *)
Theorem customAssert_without_generic_message {T IAsyncProperty Parameters : Type}
    (fc_check : IAsyncProperty -> option Parameters -> Promise (RunDetails (list T)))
    (fc_formatRunDetails : RunDetails (list T) -> option string)
    (property : IAsyncProperty) (params : option Parameters)
    (out : RunDetails (list T)) (callMethod : list T -> Promise string)
    (st : State (list T)) :
  failed out = true ->
  fc_formatRunDetails out = None ->
  fc_check property params = Resolved out ->
  (counterexample out = None ->
   fst (customAssertA fc_check fc_formatRunDetails property params st)
   = Raised (NewError EmptyString)
   /\ fst (buildCustomAssertB_run fc_check fc_formatRunDetails property params
             (Some callMethod) st)
      = Raised (NewError EmptyString)
   /\ fst (withCustomAssert fc_formatRunDetails (Resolved out) callMethod st)
      = Raised (NewError EmptyString))
  /\ (forall counterexample text,
        RunDetailsFormatter.counterexample out = Some counterexample ->
        callMethod counterexample = Resolved text ->
        fst (customAssertA fc_check fc_formatRunDetails property params st)
        = Raised (NewError ("undefined" +:+ LF +:+ LF +:+
                            "await callMethod(out.counterexample)"))
        /\ fst (buildCustomAssertB_run fc_check fc_formatRunDetails property params
                  (Some callMethod) st)
           = Raised (NewError ("undefined" +:+ LF +:+ LF +:+ text))
        /\ fst (withCustomAssert fc_formatRunDetails (Resolved out) callMethod st)
           = Raised (NewError ("undefined" +:+ LF +:+ LF +:+ text))).
Proof.
  intros Hfailed Hgeneric Hcheck.
  unfold customAssertA, buildCustomAssertB_run, withCustomAssert.
  rewrite Hcheck. unfold await, bind, ret, raise, emit. rewrite Hfailed, Hgeneric. simpl.
  split.
  - by intros ->.
  - intros counterexample text -> Htext. simpl. by rewrite Htext.
Qed.

Lemma customAssert_without_generic_message_witness :
  fst (withCustomAssert MoreExamples.noMessage (Resolved Examples.failedPair)
         Examples.explain Examples.noTrials)
  = Raised (NewError ("undefined" +:+ LF +:+ LF +:+ "got 3, 4")).
Proof.
  exact (proj2 (proj2
           (proj2 (customAssert_without_generic_message
                     (Examples.checkGives Examples.failedPair) MoreExamples.noMessage
                     tt None Examples.failedPair Examples.explain Examples.noTrials
                     eq_refl eq_refl eq_refl)
              [3%Z; 4%Z] "got 3, 4" eq_refl eq_refl))).
Defined.

End CustomAssertExtras.

(** ** Further properties of properties *)

Module PropertyExtras.
Import Js AsyncProperty.

Section Facts.
Context {V : Type} (undefined : V).

(** Reading the first [n] positions of a tuple: its first [n] elements,
    with [undefined] for the positions it does not have. *)
Lemma positions_take_pad (n : nat) :
  forall t : list V,
    map (at_ undefined t) (seq 0 n)
    = take n t ++ replicate (n - length t) undefined.
Proof.
  induction n as [|n IH]; intros t; [by destruct t|].
  change (seq 0 (S n)) with (0 :: seq 1 n). rewrite <- seq_shift, map_cons, map_map.
  destruct t as [|v t].
  - specialize (IH []). rewrite take_nil in IH. simpl in IH.
    rewrite Nat.sub_0_r in IH. rewrite take_nil. simpl. f_equal.
    rewrite <- IH. apply map_ext. intros i. by destruct i.
  - simpl. f_equal. rewrite <- IH. reflexivity.
Qed.

End Facts.

(** X15. When the predicate throws anything but an [Error] with a stack
    trace (a value that is no [Error], an [Error] whose stack is undefined or
    empty), [run] resolves to the failure described by the string form of
    what was thrown, without a "Stack trace: " part. *)
Theorem run_describes_other_rejections {MutableRandomGenerator Ts : Type}
    (self : @AsyncProperty MutableRandomGenerator Ts) (v : Ts) (err : Thrown) :
  predicate self v = Rejected err ->
  (forall name message stack,
     err = JsError name message (Some stack) -> stack = EmptyString) ->
  AsyncProperty_run self v = Resolved (Fail (Thrown_toString err)).
Proof.
  intros Hthrow Hstack. unfold AsyncProperty_run. rewrite Hthrow.
  destruct err as [name message [stack|]|text]; try reflexivity.
  rewrite (Hstack name message stack eq_refl). reflexivity.
Qed.

Lemma run_describes_other_rejections_witness :
  AsyncProperty_run
    (mkAsyncProperty (tuple PropertyExamples.notAFunction
                        [Some (IsArbitrary PropertyExamples.counting)])
       MoreExamples.throwsText)
    [PropertyExamples.JsNumber 3]
  = Resolved (Some "not today")
  /\ AsyncProperty_run
       (mkAsyncProperty (tuple PropertyExamples.notAFunction
                           [Some (IsArbitrary PropertyExamples.counting)])
          MoreExamples.throwsBare)
       [PropertyExamples.JsNumber 3]
     = Resolved (Some "RangeError: too big").
Proof.
  split.
  - refine (run_describes_other_rejections
              (mkAsyncProperty (tuple PropertyExamples.notAFunction
                                  [Some (IsArbitrary PropertyExamples.counting)])
                 MoreExamples.throwsText)
              [PropertyExamples.JsNumber 3] (JsOther "not today") eq_refl _).
    intros name message stack H. discriminate H.
  - refine (run_describes_other_rejections
              (mkAsyncProperty (tuple PropertyExamples.notAFunction
                                  [Some (IsArbitrary PropertyExamples.counting)])
                 MoreExamples.throwsBare)
              [PropertyExamples.JsNumber 3] (JsError "RangeError" "too big" None) eq_refl _).
    intros name message stack H. discriminate H.
Defined.

(** X16. The property built through the overload for [n] generators hands
    its predicate exactly [n] arguments, whatever the length of the tuple it
    runs on: the first [n] elements of the tuple, with [undefined] for the
    positions a shorter tuple lacks; the elements past the first [n] are
    dropped. *)
Theorem overload_unpacks_positionally {MutableRandomGenerator V : Type}
    (undefined : V) (typeError : Thrown)
    (arbs : list (@Arbitrary MutableRandomGenerator V))
    (f : list V -> Promise PredicateOutput) :
  1 <= length arbs <= 9 ->
  exists P,
    overload undefined typeError arbs f = Some P
    /\ forall t,
         predicate P t
         = f (take (length arbs) t ++ replicate (length arbs - length t) undefined).
Proof.
  intros Hlen.
  do 10 (try (destruct arbs as [|? arbs]; simpl in Hlen; try lia)).
  all: eexists; split; [reflexivity|]; intros t.
  all: rewrite <- positions_take_pad; reflexivity.
Qed.

Lemma overload_unpacks_positionally_witness :
  exists P,
    overload PropertyExamples.JsUndefined PropertyExamples.notAFunction
      [PropertyExamples.counting; PropertyExamples.tenfold] PropertyExamples.ascending
    = Some P
    /\ predicate P [PropertyExamples.JsNumber 4]
       = PropertyExamples.ascending
           [PropertyExamples.JsNumber 4; PropertyExamples.JsUndefined]
    /\ predicate P [PropertyExamples.JsNumber 4; PropertyExamples.JsNumber 50;
                    PropertyExamples.JsNumber 7]
       = PropertyExamples.ascending
           [PropertyExamples.JsNumber 4; PropertyExamples.JsNumber 50].
Proof.
  destruct (overload_unpacks_positionally PropertyExamples.JsUndefined
              PropertyExamples.notAFunction
              [PropertyExamples.counting; PropertyExamples.tenfold]
              PropertyExamples.ascending ltac:(simpl; lia))
    as (P & HP & Hargs).
  exists P. split; [exact HP|]. split.
  - exact (Hargs [PropertyExamples.JsNumber 4]).
  - exact (Hargs [PropertyExamples.JsNumber 4; PropertyExamples.JsNumber 50;
                  PropertyExamples.JsNumber 7]).
Defined.

(** X17. A call in which the slot taken for the predicate holds an
    arbitrary (the predicate was left out) still builds a property; that
    property fails on every value it is run on, with the description of the
    [TypeError] that calling the arbitrary throws. *)
Theorem asyncProperty_without_predicate_fails {MutableRandomGenerator V : Type}
    (undefined : V) (typeError : Thrown)
    (arb1 : @Arbitrary MutableRandomGenerator V) (arb2 : Arg)
    (arb3 arb4 arb5 arb6 arb7 arb8 arb9 : option Arg)
    (predicate : option (list V -> Promise PredicateOutput))
    (a : Arbitrary V) (t : list V) :
  arguments arb1 arb2 arb3 arb4 arb5 arb6 arb7 arb8 arb9 predicate
    !! resolveByPresence (arguments arb1 arb2 arb3 arb4 arb5 arb6 arb7 arb8 arb9 predicate)
  = Some (Some (IsArbitrary a)) ->
  AsyncProperty.predicate
    (asyncProperty undefined typeError arb1 arb2 arb3 arb4 arb5 arb6 arb7 arb8 arb9 predicate)
    t
  = Rejected typeError
  /\ exists description,
       AsyncProperty_run
         (asyncProperty undefined typeError arb1 arb2 arb3 arb4 arb5 arb6 arb7 arb8 arb9
            predicate) t
       = Resolved (Fail description).
Proof.
  intros Hslot.
  assert (AsyncProperty.predicate
            (asyncProperty undefined typeError arb1 arb2 arb3 arb4 arb5 arb6 arb7 arb8 arb9
               predicate) t
          = Rejected typeError) as Hcall.
  { destruct predicate as [p|]; [discriminate Hslot|].
    destruct arb9 as [p|]; [by injection Hslot as ->|].
    destruct arb8 as [p|]; [by injection Hslot as ->|].
    destruct arb7 as [p|]; [by injection Hslot as ->|].
    destruct arb6 as [p|]; [by injection Hslot as ->|].
    destruct arb5 as [p|]; [by injection Hslot as ->|].
    destruct arb4 as [p|]; [by injection Hslot as ->|].
    destruct arb3 as [p|]; [by injection Hslot as ->|].
    by injection Hslot as ->. }
  split; [exact Hcall|].
  unfold AsyncProperty_run. rewrite Hcall.
  destruct typeError as [name message stack|text]; [|by eexists].
  destruct (truthy_stack stack); by eexists.
Qed.

Lemma asyncProperty_without_predicate_fails_witness :
  exists description,
    AsyncProperty_run
      (asyncProperty PropertyExamples.JsUndefined PropertyExamples.notAFunction
         PropertyExamples.counting (IsArbitrary PropertyExamples.tenfold)
         None None None None None None None None)
      [PropertyExamples.JsNumber 4]
    = Resolved (Fail description).
Proof.
  exact (proj2 (asyncProperty_without_predicate_fails PropertyExamples.JsUndefined
                  PropertyExamples.notAFunction PropertyExamples.counting
                  (IsArbitrary PropertyExamples.tenfold)
                  None None None None None None None None
                  PropertyExamples.tenfold [PropertyExamples.JsNumber 4] eq_refl)).
Defined.

End PropertyExtras.
